(** * Speech Writer: the action handlers of [src/actions/index.ts]
      over the two tables of [db/tables.ts].

    The handlers are embedded as functions in a small reader/state/error
    monad: the state is the database together with the list of SQL
    statements issued so far, the reader part holds what a handler draws
    from its surroundings ([crypto.randomUUID()], [new Date()]), and a
    thrown error keeps the state reached at the [throw].  The database
    is seen through its driver: what a statement stores and returns is
    what the driver reads back. *)

From Stdlib Require Import List String Ascii ZArith NArith Bool Arith Lia Floats.
Import ListNotations.
Local Open Scope string_scope.

Set Implicit Arguments.
Set Warnings "-register-all".

(* ===================================================================== *)
(** ** Values received from the client *)

(** A JavaScript value as an action receives it.  [JUndefined] is what a
    property access on a missing key (or on a non-object) yields. *)
Inductive jsval : Type :=
| JUndefined
| JNull
| JBool (b : bool)
| JNum (n : float)
| JStr (s : string)
| JArr (items : list jsval)
| JObj (props : list (string * jsval)).

Fixpoint lookup_prop (k : string) (props : list (string * jsval)) : jsval :=
  match props with
  | [] => JUndefined
  | (k', v) :: rest => if String.eqb k' k then v else lookup_prop k rest
  end.

(* ===================================================================== *)
(** ** The fragment of zod the schemas use *)

Module z.

  (** A schema parses a value or reports an issue ([None]). *)
Definition Schema (A : Type) : Type := jsval -> option A.

Definition string : Schema String.string :=
    fun v => match v with JStr s => Some s | _ => None end.

  (** [z.string().min(n)] *)
Definition string_min (n : nat) : Schema String.string :=
    fun v => match v with
             | JStr s => if Nat.leb n (String.length s) then Some s else None
             | _ => None
             end.

  (** [z.number()] accepts every number but NaN. *)
Definition number : Schema float :=
    fun v => match v with
             | JNum n => if PrimFloat.is_nan n then None else Some n
             | _ => None
             end.

Definition boolean : Schema bool :=
    fun v => match v with JBool b => Some b | _ => None end.

  (** [s.optional()] *)
Definition optional {A} (s : Schema A) : Schema (option A) :=
    fun v => match v with
             | JUndefined => Some None
             | _ => option_map Some (s v)
             end.

  (** [s.default(d)] *)
Definition default {A} (s : Schema A) (d : A) : Schema A :=
    fun v => match v with
             | JUndefined => Some d
             | _ => s v
             end.

  (** [s.refine(p)]: the predicate runs on the parsed value. *)
Definition refine {A} (s : Schema A) (p : A -> bool) : Schema A :=
    fun v => match s v with
             | Some a => if p a then Some a else None
             | None => None
             end.

  (** [z.object({...})]: the value must be an object; [shape] reads the
      keys it declares through the accessor it is given (other keys are
      stripped). *)
Definition object {A} (shape : (String.string -> jsval) -> option A) : Schema A :=
    fun v => match v with
             | JObj props => shape (fun k => lookup_prop k props)
             | _ => None
             end.

End z.

(** Sequencing of field parsers inside an object shape. *)
Notation "x <-? c ; k" :=
  (match c with Some x => k | None => None end)
    (at level 61, c at next level, right associativity).

(** [x !== undefined] on a parsed optional field. *)
Definition defined {A} (x : option A) : bool :=
  match x with Some _ => true | None => false end.

(* ===================================================================== *)
(** ** Tables ([db/tables.ts]) *)

(** A [column.date] value: milliseconds since the epoch. *)
Definition Date : Type := Z.
Bind Scope Z_scope with Date.

(** The libSQL client underneath [astro:db], as far as a handler can
    observe it.  Text comes back from the database cut at the first
    U+0000.  A number is refused as an argument unless it is finite; in
    a [column.number] (INTEGER affinity) a value that is an integer of
    64 bits is kept as that integer, so [-0] becomes [0], and an
    integer outside the safe range [-(2^53 - 1) .. 2^53 - 1] cannot be
    read back: the read raises a RangeError. *)
Module Driver.

Fixpoint text (s : string) : string :=
  match s with
  | EmptyString => EmptyString
  | String c rest => if Ascii.eqb c Ascii.zero then EmptyString else String c (text rest)
  end.

Definition accepts_number (x : float) : bool := PrimFloat.is_finite x.

(** The integer a float denotes, when it denotes one. *)
Definition integer_of (x : float) : option Z :=
  match Prim2SF x with
  | S754_zero _ => Some 0%Z
  | S754_finite sign m e =>
      let n := if sign then Z.neg m else Z.pos m in
      if (0 <=? e)%Z then Some (n * 2 ^ e)%Z
      else if (n mod 2 ^ (- e) =? 0)%Z then Some (n / 2 ^ (- e))%Z
           else None
  | S754_infinity _ | S754_nan => None
  end.

(** The number as the column keeps it. *)
Definition number (x : float) : float :=
  if PrimFloat.is_zero x then PrimFloat.zero else x.

(** Whether the number kept in the column can be read back. *)
Definition reads_number (x : float) : bool :=
  match integer_of x with
  | Some i => if (Z.abs i <? 2 ^ 63)%Z then (Z.abs i <=? 2 ^ 53 - 1)%Z else true
  | None => true
  end.

End Driver.

(** The store holds each row as the driver reads it back.  The key
    columns ([id], [userId], [speechId]) hold identifiers, which carry
    no U+0000 and are kept as given. *)

Module Speeches.
Record row : Type := {
    id : string;                 (* primaryKey *)
    userId : string;
    title : string;
    occasion : option string;
    audience : option string;
    language : option string;
    notes : option string;
    createdAt : Date;
    updatedAt : Date
  }.

  (** The argument of [.set(...)]: the columns an update assigns. *)
Record set : Type := {
    set_title : option string;
    set_occasion : option string;
    set_audience : option string;
    set_language : option string;
    set_notes : option string;
    set_updatedAt : option Date
  }.

Definition assign {A} (new : option A) (old : A) : A :=
    match new with Some a => a | None => old end.

Definition apply (s : set) (r : row) : row :=
    {| id := id r;
       userId := userId r;
       title := assign (set_title s) (title r);
       occasion := assign (option_map Some (set_occasion s)) (occasion r);
       audience := assign (option_map Some (set_audience s)) (audience r);
       language := assign (option_map Some (set_language s)) (language r);
       notes := assign (option_map Some (set_notes s)) (notes r);
       createdAt := createdAt r;
       updatedAt := assign (set_updatedAt s) (updatedAt r) |}.

(** The values of an insert as the store keeps them. *)
Definition written (r : row) : row :=
    {| id := id r;
       userId := userId r;
       title := Driver.text (title r);
       occasion := option_map Driver.text (occasion r);
       audience := option_map Driver.text (audience r);
       language := option_map Driver.text (language r);
       notes := option_map Driver.text (notes r);
       createdAt := createdAt r;
       updatedAt := updatedAt r |}.

(** The values of an update as the store keeps them. *)
Definition written_set (s : set) : set :=
    {| set_title := option_map Driver.text (set_title s);
       set_occasion := option_map Driver.text (set_occasion s);
       set_audience := option_map Driver.text (set_audience s);
       set_language := option_map Driver.text (set_language s);
       set_notes := option_map Driver.text (set_notes s);
       set_updatedAt := set_updatedAt s |}.
End Speeches.

Module SpeechVersions.
Record row : Type := {
    id : string;                 (* primaryKey *)
    speechId : string;           (* references Speeches.id *)
    versionLabel : option string;
    tone : option string;
    targetDurationMinutes : option float;
    scriptText : string;
    isPreferred : bool;
    createdAt : Date
  }.

Record set : Type := {
    set_versionLabel : option string;
    set_tone : option string;
    set_targetDurationMinutes : option float;
    set_scriptText : option string;
    set_isPreferred : option bool
  }.

Definition assign {A} (new : option A) (old : A) : A :=
    match new with Some a => a | None => old end.

Definition apply (s : set) (r : row) : row :=
    {| id := id r;
       speechId := speechId r;
       versionLabel := assign (option_map Some (set_versionLabel s)) (versionLabel r);
       tone := assign (option_map Some (set_tone s)) (tone r);
       targetDurationMinutes :=
         assign (option_map Some (set_targetDurationMinutes s)) (targetDurationMinutes r);
       scriptText := assign (set_scriptText s) (scriptText r);
       isPreferred := assign (set_isPreferred s) (isPreferred r);
       createdAt := createdAt r |}.

(** Whether the driver takes the values of an insert as arguments. *)
Definition bindable (r : row) : bool :=
  match targetDurationMinutes r with
  | Some x => Driver.accepts_number x
  | None => true
  end.

(** The values of an insert as the store keeps them. *)
Definition written (r : row) : row :=
    {| id := id r;
       speechId := speechId r;
       versionLabel := option_map Driver.text (versionLabel r);
       tone := option_map Driver.text (tone r);
       targetDurationMinutes := option_map Driver.number (targetDurationMinutes r);
       scriptText := Driver.text (scriptText r);
       isPreferred := isPreferred r;
       createdAt := createdAt r |}.

(** Whether the driver can read a stored row back. *)
Definition readable (r : row) : bool :=
  match targetDurationMinutes r with
  | Some x => Driver.reads_number x
  | None => true
  end.

Definition bindable_set (s : set) : bool :=
  match set_targetDurationMinutes s with
  | Some x => Driver.accepts_number x
  | None => true
  end.

Definition written_set (s : set) : set :=
    {| set_versionLabel := option_map Driver.text (set_versionLabel s);
       set_tone := option_map Driver.text (set_tone s);
       set_targetDurationMinutes := option_map Driver.number (set_targetDurationMinutes s);
       set_scriptText := option_map Driver.text (set_scriptText s);
       set_isPreferred := set_isPreferred s |}.
End SpeechVersions.

(** The store: each table is the list of its rows in storage order. *)
Record Database : Type := {
  Speeches_rows : list Speeches.row;
  SpeechVersions_rows : list SpeechVersions.row
}.

(** The primary keys of [db/tables.ts]: no two rows of a table share an id. *)
Definition primary_keys (d : Database) : Prop :=
  NoDup (map Speeches.id (Speeches_rows d)) /\
  NoDup (map SpeechVersions.id (SpeechVersions_rows d)).

(* ===================================================================== *)
(** ** The monad of handlers *)

Inductive Table : Type := TSpeeches | TSpeechVersions.

(** One persistence call. *)
Inductive Statement : Type :=
| SELECT (t : Table)
| INSERT (t : Table)
| UPDATE (t : Table)
| DELETE (t : Table).

Record World : Type := {
  db : Database;
  issued : list Statement        (* persistence calls so far, oldest first *)
}.

(** What one invocation draws from its surroundings. *)
Record Ambient : Type := {
  entropy : N;                   (* the bits [crypto.randomUUID()] consumes *)
  clock : Date                   (* the reading [new Date()] takes *)
}.

Inductive ErrorCode : Type := UNAUTHORIZED | NOT_FOUND.

Inductive Failure : Type :=
| ActionError (code : ErrorCode) (message : string)
| ActionInputError                      (* the input did not parse *)
| ConstraintError (t : Table)           (* an insert repeated a primary key *)
| RangeError.                           (* the driver refused a number *)

Definition Action (A : Type) : Type := Ambient -> World -> (Failure + A) * World.

Definition ret {A} (a : A) : Action A := fun _ w => (inr a, w).

Definition throw {A} (e : Failure) : Action A := fun _ w => (inl e, w).

Definition bind {A B} (m : Action A) (k : A -> Action B) : Action B :=
  fun env w =>
    match m env w with
    | (inr a, w') => k a env w'
    | (inl e, w') => (inl e, w')
    end.

Notation "'let*' x ':=' c 'in' k" := (bind c (fun x => k))
  (at level 10, x name, c at level 100, k at level 200).
Notation "c ';;' k" := (bind c (fun _ => k))
  (at level 100, k at level 200, right associativity).

(* ===================================================================== *)
(** ** The persistence layer ([astro:db]) *)

Definition issue (st : Statement) (w : World) : World :=
  {| db := db w; issued := issued w ++ [st] |}.

Module Db.

(** [db.select().from(Speeches).where(p)] *)
Definition select_Speeches (p : Speeches.row -> bool) : Action (list Speeches.row) :=
    fun _ w => (inr (filter p (Speeches_rows (db w))), issue (SELECT TSpeeches) w).

(** [db.select().from(SpeechVersions).where(p)]: the read fails when a
    selected row cannot be read back. *)
Definition select_SpeechVersions (p : SpeechVersions.row -> bool)
    : Action (list SpeechVersions.row) :=
    fun _ w =>
      let rows := filter p (SpeechVersions_rows (db w)) in
      if forallb SpeechVersions.readable rows
      then (inr rows, issue (SELECT TSpeechVersions) w)
      else (inl RangeError, issue (SELECT TSpeechVersions) w).

(** [db.insert(Speeches).values(r).returning()]: refused when the
    primary key is taken. *)
Definition insert_Speeches (r : Speeches.row) : Action (list Speeches.row) :=
    fun _ w =>
      let w1 := issue (INSERT TSpeeches) w in
      if existsb (fun r' => String.eqb (Speeches.id r') (Speeches.id r)) (Speeches_rows (db w))
      then (inl (ConstraintError TSpeeches), w1)
      else (inr [Speeches.written r],
            {| db := {| Speeches_rows := Speeches_rows (db w) ++ [Speeches.written r];
                        SpeechVersions_rows := SpeechVersions_rows (db w) |};
               issued := issued w1 |}).

(** [db.insert(SpeechVersions).values(r).returning()]: the driver
    refuses a number that is not finite before anything is written; a
    row written with a number it cannot read back is stored, and the
    read of [returning()] then fails. *)
Definition insert_SpeechVersions (r : SpeechVersions.row)
    : Action (list SpeechVersions.row) :=
    fun _ w =>
      let w1 := issue (INSERT TSpeechVersions) w in
      if negb (SpeechVersions.bindable r) then (inl RangeError, w1)
      else
        if existsb (fun r' => String.eqb (SpeechVersions.id r') (SpeechVersions.id r))
                   (SpeechVersions_rows (db w))
        then (inl (ConstraintError TSpeechVersions), w1)
        else
          let w2 := {| db := {| Speeches_rows := Speeches_rows (db w);
                                SpeechVersions_rows :=
                                  SpeechVersions_rows (db w) ++ [SpeechVersions.written r] |};
                       issued := issued w1 |} in
          if SpeechVersions.readable (SpeechVersions.written r)
          then (inr [SpeechVersions.written r], w2)
          else (inl RangeError, w2).

(** [db.update(Speeches).set(s).where(p).returning()] *)
Definition update_Speeches (s : Speeches.set) (p : Speeches.row -> bool)
    : Action (list Speeches.row) :=
    fun _ w =>
      let rows := Speeches_rows (db w) in
      let s' := Speeches.written_set s in
      (inr (map (Speeches.apply s') (filter p rows)),
       {| db := {| Speeches_rows := map (fun r => if p r then Speeches.apply s' r else r) rows;
                   SpeechVersions_rows := SpeechVersions_rows (db w) |};
          issued := issued w ++ [UPDATE TSpeeches] |}).

(** [db.update(SpeechVersions).set(s).where(p).returning()]: as for the
    insert, a number that is not finite is refused before the update,
    and an updated row that cannot be read back fails [returning()]
    after it. *)
Definition update_SpeechVersions (s : SpeechVersions.set) (p : SpeechVersions.row -> bool)
    : Action (list SpeechVersions.row) :=
    fun _ w =>
      let rows := SpeechVersions_rows (db w) in
      let s' := SpeechVersions.written_set s in
      if negb (SpeechVersions.bindable_set s)
      then (inl RangeError, issue (UPDATE TSpeechVersions) w)
      else
        let w2 := {| db := {| Speeches_rows := Speeches_rows (db w);
                              SpeechVersions_rows :=
                                map (fun r => if p r then SpeechVersions.apply s' r else r)
                                    rows |};
                     issued := issued w ++ [UPDATE TSpeechVersions] |} in
        let returned := map (SpeechVersions.apply s') (filter p rows) in
        if forallb SpeechVersions.readable returned
        then (inr returned, w2)
        else (inl RangeError, w2).

(** [db.delete(SpeechVersions).where(p)]: the result carries
    [rowsAffected]. *)
Definition delete_SpeechVersions (p : SpeechVersions.row -> bool) : Action nat :=
    fun _ w =>
      let rows := SpeechVersions_rows (db w) in
      (inr (List.length (filter p rows)),
       {| db := {| Speeches_rows := Speeches_rows (db w);
                   SpeechVersions_rows := filter (fun r => negb (p r)) rows |};
          issued := issued w ++ [DELETE TSpeechVersions] |}).

End Db.

(* ===================================================================== *)
(** ** [crypto.randomUUID()] and [new Date()] *)

Definition hex_digit (n : N) : ascii :=
  match n with
  | 0 => "0" | 1 => "1" | 2 => "2" | 3 => "3" | 4 => "4" | 5 => "5" | 6 => "6" | 7 => "7"
  | 8 => "8" | 9 => "9" | 10 => "a" | 11 => "b" | 12 => "c" | 13 => "d" | 14 => "e"
  | _ => "f"
  end%N%char.

Definition hex_byte (b : N) (rest : string) : string :=
  String (hex_digit (N.shiftr b 4)) (String (hex_digit (N.land b 15)) rest).

(** Byte [i] of a version-4 UUID made from the 128 bits [r]: octet 6
    carries the version, octet 8 the variant. *)
Definition uuid_octet (r : N) (i : N) : N :=
  let b := N.land (N.shiftr r (8 * i)) 255 in
  match i with
  | 6 => N.lor (N.land b 15) 64
  | 8 => N.lor (N.land b 63) 128
  | _ => b
  end%N.

Definition uuid_string (r : N) : string :=
  let o := uuid_octet r in
  let dash := String "-"%char in
  (hex_byte (o 0) (hex_byte (o 1) (hex_byte (o 2) (hex_byte (o 3) (dash
  (hex_byte (o 4) (hex_byte (o 5) (dash
  (hex_byte (o 6) (hex_byte (o 7) (dash
  (hex_byte (o 8) (hex_byte (o 9) (dash
  (hex_byte (o 10) (hex_byte (o 11) (hex_byte (o 12) (hex_byte (o 13)
  (hex_byte (o 14) (hex_byte (o 15) ""))))))))))))))))))))%N.

Definition randomUUID : Action string := fun env w => (inr (uuid_string (entropy env)), w).

Definition new_Date : Action Date := fun env w => (inr (clock env), w).

(* ===================================================================== *)
(** ** The request context *)

Module App.
  (** [App.Locals] is declared outside the sources at hand; the handlers
      read [locals.user] and [user.id] only. *)
Record User : Type := { id : string }.
Record Locals : Type := { user : option User }.
End App.

Record ActionAPIContext : Type := { locals : option App.Locals }.

(** [defineAction({ input, handler })]: the input is parsed against the
    schema first; the handler runs on the parsed value. *)
Definition defineAction {I O} (input : z.Schema I)
           (handler : I -> ActionAPIContext -> Action O)
  : jsval -> ActionAPIContext -> Action O :=
  fun raw context =>
    match input raw with
    | Some i => handler i context
    | None => throw ActionInputError
    end.

(* ===================================================================== *)
(** ** [src/actions/index.ts] *)

Definition requireUser (context : ActionAPIContext) : Action App.User :=
  let user := match locals context with
              | Some l => App.user l
              | None => None
              end in
  match user with
  | None => throw (ActionError UNAUTHORIZED "You must be signed in to perform this action.")
  | Some u => ret u
  end.

Definition getOwnedSpeech (speechId userId : string) : Action Speeches.row :=
  let* rows := Db.select_Speeches
                 (fun r => String.eqb (Speeches.id r) speechId
                           && String.eqb (Speeches.userId r) userId) in
  match rows with
  | [] => throw (ActionError NOT_FOUND "Speech not found.")
  | speech :: _ => ret speech
  end.

Definition getOwnedSpeechVersion (versionId speechId userId : string)
  : Action SpeechVersions.row :=
  getOwnedSpeech speechId userId ;;
  let* rows := Db.select_SpeechVersions
                 (fun r => String.eqb (SpeechVersions.id r) versionId
                           && String.eqb (SpeechVersions.speechId r) speechId) in
  match rows with
  | [] => throw (ActionError NOT_FOUND "Speech version not found.")
  | version :: _ => ret version
  end.

(** A handler's result [{ success: true, data: {...} }] is represented by
    the content of [data]: the row ([undefined] when the destructured
    list is empty), the listing, or nothing for the bare
    acknowledgement of [deleteSpeechVersion]. *)

(** The payload of the two listing actions. *)
Record Listing (A : Type) : Type := { items : list A; total : nat }.

Module server.

Module createSpeech.
Record Input : Type := {
      title : string;
      occasion : option string;
      audience : option string;
      language : option string;
      notes : option string
    }.

Definition input : z.Schema Input :=
      z.object (fun get =>
        title <-? z.string_min 1 (get "title") ;
        occasion <-? z.optional z.string (get "occasion") ;
        audience <-? z.optional z.string (get "audience") ;
        language <-? z.optional z.string (get "language") ;
        notes <-? z.optional z.string (get "notes") ;
        Some {| title := title; occasion := occasion; audience := audience;
                language := language; notes := notes |}).

Definition handler (input : Input) (context : ActionAPIContext)
      : Action (option Speeches.row) :=
      let* user := requireUser context in
      let* now := new_Date in
      let* uuid := randomUUID in
      let* rows := Db.insert_Speeches
                     {| Speeches.id := uuid;
                        Speeches.userId := App.id user;
                        Speeches.title := title input;
                        Speeches.occasion := occasion input;
                        Speeches.audience := audience input;
                        Speeches.language := language input;
                        Speeches.notes := notes input;
                        Speeches.createdAt := now;
                        Speeches.updatedAt := now |} in
      ret (hd_error rows).

Definition action := defineAction input handler.
End createSpeech.

Module updateSpeech.
Record Input : Type := {
      id : string;
      title : option string;
      occasion : option string;
      audience : option string;
      language : option string;
      notes : option string
    }.

Definition input : z.Schema Input :=
      z.refine
        (z.object (fun get =>
           id <-? z.string_min 1 (get "id") ;
           title <-? z.optional (z.string_min 1) (get "title") ;
           occasion <-? z.optional z.string (get "occasion") ;
           audience <-? z.optional z.string (get "audience") ;
           language <-? z.optional z.string (get "language") ;
           notes <-? z.optional z.string (get "notes") ;
           Some {| id := id; title := title; occasion := occasion; audience := audience;
                   language := language; notes := notes |}))
        (fun input =>
           defined (title input) || defined (occasion input) || defined (audience input)
           || defined (language input) || defined (notes input)).

Definition handler (input : Input) (context : ActionAPIContext)
      : Action (option Speeches.row) :=
      let* user := requireUser context in
      getOwnedSpeech (id input) (App.id user) ;;
      let* now := new_Date in
      let* rows := Db.update_Speeches
                     {| Speeches.set_title := title input;
                        Speeches.set_occasion := occasion input;
                        Speeches.set_audience := audience input;
                        Speeches.set_language := language input;
                        Speeches.set_notes := notes input;
                        Speeches.set_updatedAt := Some now |}
                     (fun r => String.eqb (Speeches.id r) (id input)) in
      ret (hd_error rows).

Definition action := defineAction input handler.
End updateSpeech.

Module listSpeeches.
Definition input : z.Schema (option unit) :=
      z.optional (z.object (fun _ => Some tt)).

Definition handler (_input : option unit) (context : ActionAPIContext)
      : Action (Listing Speeches.row) :=
      let* user := requireUser context in
      let* speeches := Db.select_Speeches
                         (fun r => String.eqb (Speeches.userId r) (App.id user)) in
      ret {| items := speeches; total := List.length speeches |}.

Definition action := defineAction input handler.
End listSpeeches.

Module createSpeechVersion.
Record Input : Type := {
      speechId : string;
      versionLabel : option string;
      tone : option string;
      targetDurationMinutes : option float;
      scriptText : string;
      isPreferred : option bool
    }.

Definition input : z.Schema Input :=
      z.object (fun get =>
        speechId <-? z.string_min 1 (get "speechId") ;
        versionLabel <-? z.optional z.string (get "versionLabel") ;
        tone <-? z.optional z.string (get "tone") ;
        targetDurationMinutes <-? z.optional z.number (get "targetDurationMinutes") ;
        scriptText <-? z.string_min 1 (get "scriptText") ;
        isPreferred <-? z.optional z.boolean (get "isPreferred") ;
        Some {| speechId := speechId; versionLabel := versionLabel; tone := tone;
                targetDurationMinutes := targetDurationMinutes;
                scriptText := scriptText; isPreferred := isPreferred |}).

Definition handler (input : Input) (context : ActionAPIContext)
      : Action (option SpeechVersions.row) :=
      let* user := requireUser context in
      getOwnedSpeech (speechId input) (App.id user) ;;
      let* uuid := randomUUID in
      let* now := new_Date in
      let* rows := Db.insert_SpeechVersions
                     {| SpeechVersions.id := uuid;
                        SpeechVersions.speechId := speechId input;
                        SpeechVersions.versionLabel := versionLabel input;
                        SpeechVersions.tone := tone input;
                        SpeechVersions.targetDurationMinutes := targetDurationMinutes input;
                        SpeechVersions.scriptText := scriptText input;
                        SpeechVersions.isPreferred :=
                          match isPreferred input with Some b => b | None => false end;
                        SpeechVersions.createdAt := now |} in
      ret (hd_error rows).

Definition action := defineAction input handler.
End createSpeechVersion.

Module updateSpeechVersion.
Record Input : Type := {
      id : string;
      speechId : string;
      versionLabel : option string;
      tone : option string;
      targetDurationMinutes : option float;
      scriptText : option string;
      isPreferred : option bool
    }.

Definition input : z.Schema Input :=
      z.refine
        (z.object (fun get =>
           id <-? z.string_min 1 (get "id") ;
           speechId <-? z.string_min 1 (get "speechId") ;
           versionLabel <-? z.optional z.string (get "versionLabel") ;
           tone <-? z.optional z.string (get "tone") ;
           targetDurationMinutes <-? z.optional z.number (get "targetDurationMinutes") ;
           scriptText <-? z.optional z.string (get "scriptText") ;
           isPreferred <-? z.optional z.boolean (get "isPreferred") ;
           Some {| id := id; speechId := speechId; versionLabel := versionLabel;
                   tone := tone; targetDurationMinutes := targetDurationMinutes;
                   scriptText := scriptText; isPreferred := isPreferred |}))
        (fun input =>
           defined (versionLabel input) || defined (tone input)
           || defined (targetDurationMinutes input) || defined (scriptText input)
           || defined (isPreferred input)).

Definition handler (input : Input) (context : ActionAPIContext)
      : Action (option SpeechVersions.row) :=
      let* user := requireUser context in
      getOwnedSpeechVersion (id input) (speechId input) (App.id user) ;;
      let* rows := Db.update_SpeechVersions
                     {| SpeechVersions.set_versionLabel := versionLabel input;
                        SpeechVersions.set_tone := tone input;
                        SpeechVersions.set_targetDurationMinutes := targetDurationMinutes input;
                        SpeechVersions.set_scriptText := scriptText input;
                        SpeechVersions.set_isPreferred := isPreferred input |}
                     (fun r => String.eqb (SpeechVersions.id r) (id input)) in
      ret (hd_error rows).

Definition action := defineAction input handler.
End updateSpeechVersion.

Module deleteSpeechVersion.
Record Input : Type := { id : string; speechId : string }.

Definition input : z.Schema Input :=
      z.object (fun get =>
        id <-? z.string_min 1 (get "id") ;
        speechId <-? z.string_min 1 (get "speechId") ;
        Some {| id := id; speechId := speechId |}).

    (** The statements after the ownership guard: the delete and the
        check of [rowsAffected]. *)
Definition delete_checked (input : Input) : Action unit :=
      let* rowsAffected := Db.delete_SpeechVersions
                             (fun r => String.eqb (SpeechVersions.id r) (id input)) in
      if Nat.eqb rowsAffected 0
      then throw (ActionError NOT_FOUND "Speech version not found.")
      else ret tt.

Definition handler (input : Input) (context : ActionAPIContext) : Action unit :=
      let* user := requireUser context in
      getOwnedSpeechVersion (id input) (speechId input) (App.id user) ;;
      delete_checked input.

Definition action := defineAction input handler.
End deleteSpeechVersion.

Module listSpeechVersions.
Record Input : Type := { speechId : string; preferredOnly : bool }.

Definition input : z.Schema Input :=
      z.object (fun get =>
        speechId <-? z.string_min 1 (get "speechId") ;
        preferredOnly <-? z.default z.boolean false (get "preferredOnly") ;
        Some {| speechId := speechId; preferredOnly := preferredOnly |}).

Definition handler (input : Input) (context : ActionAPIContext)
      : Action (Listing SpeechVersions.row) :=
      let* user := requireUser context in
      getOwnedSpeech (speechId input) (App.id user) ;;
      let* versions := Db.select_SpeechVersions
                         (if preferredOnly input
                          then fun r => String.eqb (SpeechVersions.speechId r) (speechId input)
                                        && Bool.eqb (SpeechVersions.isPreferred r) true
                          else fun r => String.eqb (SpeechVersions.speechId r) (speechId input)) in
      ret {| items := versions; total := List.length versions |}.

Definition action := defineAction input handler.
End listSpeechVersions.

End server.

(** The exported [server] object: its seven actions under one type. *)
Inductive Operation : Type :=
| CreateSpeech | UpdateSpeech | ListSpeeches
| CreateSpeechVersion | UpdateSpeechVersion | DeleteSpeechVersion | ListSpeechVersions.

Inductive Data : Type :=
| DSpeech (speech : option Speeches.row)
| DVersion (version : option SpeechVersions.row)
| DSpeeches (l : Listing Speeches.row)
| DVersions (l : Listing SpeechVersions.row)
| DNone.

Definition returning {A B} (f : A -> B) (m : Action A) : Action B :=
  let* a := m in ret (f a).

Definition call (op : Operation) (raw : jsval) (context : ActionAPIContext) : Action Data :=
  match op with
  | CreateSpeech => returning DSpeech (server.createSpeech.action raw context)
  | UpdateSpeech => returning DSpeech (server.updateSpeech.action raw context)
  | ListSpeeches => returning DSpeeches (server.listSpeeches.action raw context)
  | CreateSpeechVersion => returning DVersion (server.createSpeechVersion.action raw context)
  | UpdateSpeechVersion => returning DVersion (server.updateSpeechVersion.action raw context)
  | DeleteSpeechVersion =>
      returning (fun _ : unit => DNone) (server.deleteSpeechVersion.action raw context)
  | ListSpeechVersions => returning DVersions (server.listSpeechVersions.action raw context)
  end.

(* ===================================================================== *)
(** ** Vocabulary of the specification *)

(** The error taxonomy. *)
Definition Unauthorized : Failure :=
  ActionError UNAUTHORIZED "You must be signed in to perform this action.".
Definition SpeechNotFound : Failure := ActionError NOT_FOUND "Speech not found.".
Definition VersionNotFound : Failure := ActionError NOT_FOUND "Speech version not found.".
Definition ValidationError : Failure := ActionInputError.

(** The authenticated caller of a request, if any: [context.locals?.user]. *)
Definition caller (context : ActionAPIContext) : option App.User :=
  match locals context with
  | Some l => App.user l
  | None => None
  end.

(** Property [k] of a received value. *)
Definition prop (raw : jsval) (k : string) : jsval :=
  match raw with
  | JObj props => lookup_prop k props
  | _ => JUndefined
  end.

(** Whether an operation's schema accepts a received value. *)
Definition accepts (op : Operation) (raw : jsval) : bool :=
  match op with
  | CreateSpeech => defined (server.createSpeech.input raw)
  | UpdateSpeech => defined (server.updateSpeech.input raw)
  | ListSpeeches => defined (server.listSpeeches.input raw)
  | CreateSpeechVersion => defined (server.createSpeechVersion.input raw)
  | UpdateSpeechVersion => defined (server.updateSpeechVersion.input raw)
  | DeleteSpeechVersion => defined (server.deleteSpeechVersion.input raw)
  | ListSpeechVersions => defined (server.listSpeechVersions.input raw)
  end.

(** A stored speech with the given id and owner. *)
Definition owned_speech (d : Database) (speechId userId : string) (s : Speeches.row) : Prop :=
  In s (Speeches_rows d) /\ Speeches.id s = speechId /\ Speeches.userId s = userId.

(** A stored version with the given id under the given speech. *)
Definition version_of (d : Database) (versionId speechId : string) (v : SpeechVersions.row)
  : Prop :=
  In v (SpeechVersions_rows d) /\ SpeechVersions.id v = versionId
  /\ SpeechVersions.speechId v = speechId.

(* ===================================================================== *)
(** ** Sample data and auxiliary definitions *)

Definition alice : App.User := {| App.id := "alice" |}.
Definition bob : App.User := {| App.id := "bob" |}.

Definition as_user (u : App.User) : ActionAPIContext :=
  {| locals := Some {| App.user := Some u |} |}.
Definition signed_out : ActionAPIContext := {| locals := Some {| App.user := None |} |}.
Definition no_locals : ActionAPIContext := {| locals := None |}.

Definition toast : Speeches.row :=
  {| Speeches.id := "s1"; Speeches.userId := "alice"; Speeches.title := "Wedding Toast";
     Speeches.occasion := Some "wedding"; Speeches.audience := None;
     Speeches.language := None; Speeches.notes := None;
     Speeches.createdAt := 1000; Speeches.updatedAt := 1000 |}.

Definition keynote : Speeches.row :=
  {| Speeches.id := "s2"; Speeches.userId := "bob"; Speeches.title := "Keynote";
     Speeches.occasion := None; Speeches.audience := Some "executives";
     Speeches.language := None; Speeches.notes := None;
     Speeches.createdAt := 1500; Speeches.updatedAt := 1700 |}.

Definition toast_formal : SpeechVersions.row :=
  {| SpeechVersions.id := "v1"; SpeechVersions.speechId := "s1";
     SpeechVersions.versionLabel := Some "formal"; SpeechVersions.tone := None;
     SpeechVersions.targetDurationMinutes := None;
     SpeechVersions.scriptText := "Hello..."; SpeechVersions.isPreferred := true;
     SpeechVersions.createdAt := 1100 |}.

Definition toast_short : SpeechVersions.row :=
  {| SpeechVersions.id := "v2"; SpeechVersions.speechId := "s1";
     SpeechVersions.versionLabel := Some "short version"; SpeechVersions.tone := None;
     SpeechVersions.targetDurationMinutes := None;
     SpeechVersions.scriptText := "Hi."; SpeechVersions.isPreferred := false;
     SpeechVersions.createdAt := 1200 |}.

Definition sample_db : Database :=
  {| Speeches_rows := [toast; keynote];
     SpeechVersions_rows := [toast_formal; toast_short] |}.

Definition sample : World := {| db := sample_db; issued := [] |}.

Definition empty_world : World :=
  {| db := {| Speeches_rows := []; SpeechVersions_rows := [] |}; issued := [] |}.

Definition at_time (t : Date) : Ambient := {| entropy := 0; clock := t |}.

(** The row [createSpeech] hands to the insert. *)
Definition new_speech (inp : server.createSpeech.Input) (u : App.User) (env : Ambient)
  : Speeches.row :=
  {| Speeches.id := uuid_string (entropy env);
     Speeches.userId := App.id u;
     Speeches.title := server.createSpeech.title inp;
     Speeches.occasion := server.createSpeech.occasion inp;
     Speeches.audience := server.createSpeech.audience inp;
     Speeches.language := server.createSpeech.language inp;
     Speeches.notes := server.createSpeech.notes inp;
     Speeches.createdAt := clock env;
     Speeches.updatedAt := clock env |}.

Definition wedding_toast_request : jsval := JObj [("title", JStr "Wedding Toast")].

(** The assignment [updateSpeech] hands to the update. *)
Definition speech_changes (inp : server.updateSpeech.Input) (env : Ambient) : Speeches.set :=
  {| Speeches.set_title := server.updateSpeech.title inp;
     Speeches.set_occasion := server.updateSpeech.occasion inp;
     Speeches.set_audience := server.updateSpeech.audience inp;
     Speeches.set_language := server.updateSpeech.language inp;
     Speeches.set_notes := server.updateSpeech.notes inp;
     Speeches.set_updatedAt := Some (clock env) |}.

Definition retitle_request : jsval :=
  JObj [("id", JStr "s1"); ("title", JStr "Rehearsal Toast")].

Definition retitle_input : server.updateSpeech.Input :=
  {| server.updateSpeech.id := "s1";
     server.updateSpeech.title := Some "Rehearsal Toast";
     server.updateSpeech.occasion := None;
     server.updateSpeech.audience := None;
     server.updateSpeech.language := None;
     server.updateSpeech.notes := None |}.

(** The store right after [createSpeech] ran at instant 2000 on an empty
    store. *)
Definition after_create : World :=
  snd (server.createSpeech.action wedding_toast_request (as_user alice) (at_time 2000)
                                  empty_world).

Definition bare_update_request : jsval := JObj [("id", JStr "v1"); ("speechId", JStr "s1")].

Definition versions_request (preferredOnly : bool) : jsval :=
  JObj [("speechId", JStr "s1"); ("preferredOnly", JBool preferredOnly)].

(** A store in which every version of speech [s1] is preferred. *)
Definition all_preferred : World :=
  {| db := {| Speeches_rows := [toast]; SpeechVersions_rows := [toast_formal] |};
     issued := [] |}.

(** The world a delete of the versions with id [i] leaves. *)
Definition without_version (i : string) (w : World) : World :=
  {| db := {| Speeches_rows := Speeches_rows (db w);
              SpeechVersions_rows :=
                filter (fun r => negb (String.eqb (SpeechVersions.id r) i))
                       (SpeechVersions_rows (db w)) |};
     issued := issued w ++ [DELETE TSpeechVersions] |}.

Definition delete_request : jsval := JObj [("id", JStr "v2"); ("speechId", JStr "s1")].

Definition preserves_keys {A} (m : Action A) : Prop :=
  forall env w, primary_keys (db w) -> primary_keys (db (snd (m env w))).

Definition script_request (speechId : string) : jsval :=
  JObj [("speechId", JStr speechId); ("scriptText", JStr "Hello...")].

(** A store in which speech [s1] has one version, not preferred. *)
Definition one_draft : World :=
  {| db := {| Speeches_rows := [toast]; SpeechVersions_rows := [toast_short] |};
     issued := [] |}.

(** The row [createSpeechVersion] hands to the insert. *)
Definition new_version (inp : server.createSpeechVersion.Input) (env : Ambient)
  : SpeechVersions.row :=
  {| SpeechVersions.id := uuid_string (entropy env);
     SpeechVersions.speechId := server.createSpeechVersion.speechId inp;
     SpeechVersions.versionLabel := server.createSpeechVersion.versionLabel inp;
     SpeechVersions.tone := server.createSpeechVersion.tone inp;
     SpeechVersions.targetDurationMinutes :=
       server.createSpeechVersion.targetDurationMinutes inp;
     SpeechVersions.scriptText := server.createSpeechVersion.scriptText inp;
     SpeechVersions.isPreferred :=
       match server.createSpeechVersion.isPreferred inp with Some b => b | None => false end;
     SpeechVersions.createdAt := clock env |}.

(** The assignment [updateSpeechVersion] hands to the update. *)
Definition version_changes (inp : server.updateSpeechVersion.Input) : SpeechVersions.set :=
  {| SpeechVersions.set_versionLabel := server.updateSpeechVersion.versionLabel inp;
     SpeechVersions.set_tone := server.updateSpeechVersion.tone inp;
     SpeechVersions.set_targetDurationMinutes :=
       server.updateSpeechVersion.targetDurationMinutes inp;
     SpeechVersions.set_scriptText := server.updateSpeechVersion.scriptText inp;
     SpeechVersions.set_isPreferred := server.updateSpeechVersion.isPreferred inp |}.

(** The request key under which an operation names the speech it works
    on, for the five operations that name one. *)
Definition speech_key (op : Operation) : option string :=
  match op with
  | UpdateSpeech => Some "id"
  | CreateSpeechVersion | UpdateSpeechVersion | DeleteSpeechVersion | ListSpeechVersions =>
      Some "speechId"
  | CreateSpeech | ListSpeeches => None
  end.

(** The request key under which an operation names a version. *)
Definition version_key (op : Operation) : option string :=
  match op with
  | UpdateSpeechVersion | DeleteSpeechVersion => Some "id"
  | _ => None
  end.

(** The keys an operation's schema declares. *)
Definition declared_keys (op : Operation) : list string :=
  match op with
  | CreateSpeech => ["title"; "occasion"; "audience"; "language"; "notes"]
  | UpdateSpeech => ["id"; "title"; "occasion"; "audience"; "language"; "notes"]
  | ListSpeeches => []
  | CreateSpeechVersion =>
      ["speechId"; "versionLabel"; "tone"; "targetDurationMinutes"; "scriptText";
       "isPreferred"]
  | UpdateSpeechVersion =>
      ["id"; "speechId"; "versionLabel"; "tone"; "targetDurationMinutes"; "scriptText";
       "isPreferred"]
  | DeleteSpeechVersion => ["id"; "speechId"]
  | ListSpeechVersions => ["speechId"; "preferredOnly"]
  end.

(** The foreign key of [db/tables.ts]: every version belongs to a stored
    speech. *)
Definition references_hold (d : Database) : Prop :=
  forall v, In v (SpeechVersions_rows d) ->
            exists s, In s (Speeches_rows d) /\ Speeches.id s = SpeechVersions.speechId v.

(** A statement that changes the store. *)
Definition is_write (st : Statement) : bool :=
  match st with SELECT _ => false | _ => true end.

Definition script_input : server.createSpeechVersion.Input :=
  {| server.createSpeechVersion.speechId := "s1";
     server.createSpeechVersion.versionLabel := None;
     server.createSpeechVersion.tone := None;
     server.createSpeechVersion.targetDurationMinutes := None;
     server.createSpeechVersion.scriptText := "Hello...";
     server.createSpeechVersion.isPreferred := None |}.

(** The changes of the store a call by the caller with id [u] can make:
    one per writing operation. *)
Inductive transition (u : string) : Database -> Database -> Prop :=
| t_createSpeech d s :
    Speeches.userId s = u ->
    ~ In (Speeches.id s) (map Speeches.id (Speeches_rows d)) ->
    transition u d {| Speeches_rows := Speeches_rows d ++ [s];
                      SpeechVersions_rows := SpeechVersions_rows d |}
| t_updateSpeech d old set :
    owned_speech d (Speeches.id old) u old ->
    transition u d
      {| Speeches_rows :=
           map (fun r => if String.eqb (Speeches.id r) (Speeches.id old)
                         then Speeches.apply set r else r) (Speeches_rows d);
         SpeechVersions_rows := SpeechVersions_rows d |}
| t_createSpeechVersion d parent v :
    owned_speech d (SpeechVersions.speechId v) u parent ->
    ~ In (SpeechVersions.id v) (map SpeechVersions.id (SpeechVersions_rows d)) ->
    transition u d {| Speeches_rows := Speeches_rows d;
                      SpeechVersions_rows := SpeechVersions_rows d ++ [v] |}
| t_updateSpeechVersion d parent old set :
    owned_speech d (SpeechVersions.speechId old) u parent ->
    In old (SpeechVersions_rows d) ->
    transition u d
      {| Speeches_rows := Speeches_rows d;
         SpeechVersions_rows :=
           map (fun r => if String.eqb (SpeechVersions.id r) (SpeechVersions.id old)
                         then SpeechVersions.apply set r else r) (SpeechVersions_rows d) |}
| t_deleteSpeechVersion d parent old :
    owned_speech d (SpeechVersions.speechId old) u parent ->
    In old (SpeechVersions_rows d) ->
    transition u d
      {| Speeches_rows := Speeches_rows d;
         SpeechVersions_rows :=
           filter (fun r => negb (String.eqb (SpeechVersions.id r) (SpeechVersions.id old)))
                  (SpeechVersions_rows d) |}.

(** What a run from world [w] may have done to the store: nothing, or,
    for an authenticated caller, one transition of that caller, the run
    having returned normally or failed with the driver's RangeError on
    reading the written row back. *)
Definition effect_ok {A} (context : ActionAPIContext) (w : World)
           (res : (Failure + A) * World) : Prop :=
  db (snd res) = db w \/
  exists u, caller context = Some u /\
            (forall e, fst res = inl e -> e = RangeError) /\
            transition (App.id u) (db w) (db (snd res)).

(** One request as the server receives it, with what its run draws from
    the surroundings. *)
Record Request : Type := {
  req_op : Operation;
  req_raw : jsval;
  req_context : ActionAPIContext;
  req_env : Ambient
}.

(** Serving a request, and a sequence of requests one after the other. *)
Definition serve (w : World) (r : Request) : World :=
  snd (call (req_op r) (req_raw r) (req_context r) (req_env r) w).

Definition serve_all (requests : list Request) (w : World) : World :=
  fold_left serve requests w.

(** The statements one call may issue, in order. *)
Definition statement_sequences : list (list Statement) :=
  [ [];
    [INSERT TSpeeches];
    [SELECT TSpeeches];
    [SELECT TSpeeches; UPDATE TSpeeches];
    [SELECT TSpeeches; INSERT TSpeechVersions];
    [SELECT TSpeeches; SELECT TSpeechVersions];
    [SELECT TSpeeches; SELECT TSpeechVersions; UPDATE TSpeechVersions];
    [SELECT TSpeeches; SELECT TSpeechVersions; DELETE TSpeechVersions] ].

(** A short session: alice creates a speech, attaches a version to it,
    bob tries to retitle it, alice deletes the version. *)
Definition session : list Request :=
  [ {| req_op := CreateSpeech; req_raw := wedding_toast_request;
       req_context := as_user alice; req_env := {| entropy := 7; clock := 2000 |} |};
    {| req_op := CreateSpeechVersion;
       req_raw := script_request "07000000-0000-4000-8000-000000000000";
       req_context := as_user alice; req_env := {| entropy := 9; clock := 2500 |} |};
    {| req_op := UpdateSpeech;
       req_raw := JObj [("id", JStr "07000000-0000-4000-8000-000000000000");
                        ("title", JStr "Mine now")];
       req_context := as_user bob; req_env := at_time 2600 |};
    {| req_op := DeleteSpeechVersion;
       req_raw := JObj [("id", JStr "09000000-0000-4000-8000-000000000000");
                        ("speechId", JStr "07000000-0000-4000-8000-000000000000")];
       req_context := as_user alice; req_env := at_time 2700 |} ].

(** A request for a version whose duration is the integer 2^53, and the
    store the call leaves behind on the sample store. *)
Definition long_request : jsval :=
  JObj [("speechId", JStr "s1"); ("scriptText", JStr "Hello...");
        ("targetDurationMinutes", JNum 9007199254740992%float)].

Definition long_version_world : World :=
  snd (server.createSpeechVersion.action long_request (as_user alice) (at_time 3000) sample).

(* ===================================================================== *)
(** ** Running the monad *)

Unset Implicit Arguments.

Lemma bind_inr {A B} (m : Action A) (k : A -> Action B) env w a w' :
  m env w = (inr a, w') -> bind m k env w = k a env w'.
Proof. intros H. unfold bind. now rewrite H. Qed.

Lemma bind_inl {A B} (m : Action A) (k : A -> Action B) env w e w' :
  m env w = (inl e, w') -> bind m k env w = (inl e, w').
Proof. intros H. unfold bind. now rewrite H. Qed.

Lemma defineAction_parsed {I O} (input : z.Schema I)
      (handler : I -> ActionAPIContext -> Action O) raw i context :
  input raw = Some i -> defineAction input handler raw context = handler i context.
Proof. intros H. unfold defineAction. now rewrite H. Qed.

Lemma defineAction_rejected {I O} (input : z.Schema I)
      (handler : I -> ActionAPIContext -> Action O) raw context env w :
  input raw = None ->
  defineAction input handler raw context env w = (inl ValidationError, w).
Proof. intros H. unfold defineAction. now rewrite H. Qed.

Lemma requireUser_signed_in context u env w :
  caller context = Some u -> requireUser context env w = (inr u, w).
Proof. unfold caller, requireUser. intros ->. reflexivity. Qed.

Lemma requireUser_anonymous context env w :
  caller context = None -> requireUser context env w = (inl Unauthorized, w).
Proof. unfold caller, requireUser. intros ->. reflexivity. Qed.

(** What a list destructuring [const [x] = rows] sees of a filter. *)
Lemma filter_nil_iff {A} (p : A -> bool) (l : list A) :
  filter p l = [] <-> forall x, In x l -> p x = false.
Proof.
  induction l as [|a l IH]; simpl.
  - split; [intros _ x [] | reflexivity].
  - destruct (p a) eqn:Ha.
    + split; [discriminate|]. intros H. specialize (H a (or_introl eq_refl)). congruence.
    + rewrite IH. split.
      * intros H x [<-|Hx]; auto.
      * intros H x Hx. apply H. now right.
Qed.

Lemma filter_head {A} (p : A -> bool) (l : list A) x t :
  filter p l = x :: t -> In x l /\ p x = true.
Proof.
  intros H. apply filter_In. rewrite H. now left.
Qed.

Lemma getOwnedSpeech_run speechId userId env w :
  getOwnedSpeech speechId userId env w =
  (match filter (fun r => String.eqb (Speeches.id r) speechId
                          && String.eqb (Speeches.userId r) userId)
                (Speeches_rows (db w)) with
   | [] => inl SpeechNotFound
   | speech :: _ => inr speech
   end, issue (SELECT TSpeeches) w).
Proof.
  unfold getOwnedSpeech, bind, Db.select_Speeches.
  destruct (filter _ _); reflexivity.
Qed.

Lemma owner_test (r : Speeches.row) speechId userId :
  String.eqb (Speeches.id r) speechId && String.eqb (Speeches.userId r) userId = true
  <-> Speeches.id r = speechId /\ Speeches.userId r = userId.
Proof. now rewrite andb_true_iff, !String.eqb_eq. Qed.

Lemma version_test (r : SpeechVersions.row) versionId speechId :
  String.eqb (SpeechVersions.id r) versionId
  && String.eqb (SpeechVersions.speechId r) speechId = true
  <-> SpeechVersions.id r = versionId /\ SpeechVersions.speechId r = speechId.
Proof. now rewrite andb_true_iff, !String.eqb_eq. Qed.

(** The guard on a speech: outcome and effect. *)
Lemma getOwnedSpeech_cases speechId userId env w :
  (exists s, owned_speech (db w) speechId userId s /\
             getOwnedSpeech speechId userId env w = (inr s, issue (SELECT TSpeeches) w))
  \/ ((forall s, ~ owned_speech (db w) speechId userId s) /\
      getOwnedSpeech speechId userId env w = (inl SpeechNotFound, issue (SELECT TSpeeches) w)).
Proof.
  rewrite getOwnedSpeech_run.
  destruct (filter _ _) as [|s t] eqn:F.
  - right. split; [|reflexivity].
    intros s (Hin & Hid & Hu).
    rewrite filter_nil_iff in F. specialize (F s Hin).
    assert (T : String.eqb (Speeches.id s) speechId
                && String.eqb (Speeches.userId s) userId = true)
      by now apply owner_test.
    congruence.
  - left. exists s. split; [|reflexivity].
    apply filter_head in F. destruct F as [Hin Hp]. apply owner_test in Hp.
    unfold owned_speech. tauto.
Qed.

Lemma forallb_false_witness {A} (f : A -> bool) (l : list A) :
  forallb f l = false -> exists x, In x l /\ f x = false.
Proof.
  induction l as [|a l IH]; simpl; [discriminate|].
  destruct (f a) eqn:Fa; simpl.
  - intros H. destruct (IH H) as (x & Hx & Fx). exists x. tauto.
  - intros _. exists a. tauto.
Qed.

Lemma getOwnedSpeechVersion_cases versionId speechId userId env w :
  let w1 := issue (SELECT TSpeeches) w in
  let w2 := issue (SELECT TSpeechVersions) w1 in
  ((forall s, ~ owned_speech (db w) speechId userId s) /\
   getOwnedSpeechVersion versionId speechId userId env w = (inl SpeechNotFound, w1))
  \/ ((exists s, owned_speech (db w) speechId userId s) /\
      (forall v, ~ version_of (db w) versionId speechId v) /\
      getOwnedSpeechVersion versionId speechId userId env w = (inl VersionNotFound, w2))
  \/ ((exists s, owned_speech (db w) speechId userId s) /\
      (forall v, version_of (db w) versionId speechId v -> SpeechVersions.readable v = true) /\
      exists v, version_of (db w) versionId speechId v /\
                getOwnedSpeechVersion versionId speechId userId env w = (inr v, w2))
  \/ ((exists s, owned_speech (db w) speechId userId s) /\
      (exists v, version_of (db w) versionId speechId v /\ SpeechVersions.readable v = false) /\
      getOwnedSpeechVersion versionId speechId userId env w = (inl RangeError, w2)).
Proof.
  intros w1 w2. unfold getOwnedSpeechVersion.
  destruct (getOwnedSpeech_cases speechId userId env w) as [(s & Hs & E)|(Hn & E)].
  - right. erewrite bind_inr by exact E.
    unfold bind, Db.select_SpeechVersions. fold w1. simpl db.
    assert (M : forall v,
               In v (filter (fun r => String.eqb (SpeechVersions.id r) versionId
                                      && String.eqb (SpeechVersions.speechId r) speechId)
                            (SpeechVersions_rows (db w)))
               <-> version_of (db w) versionId speechId v).
    { intros v. rewrite filter_In, version_test. unfold version_of. tauto. }
    destruct (forallb _ _) eqn:R.
    + destruct (filter _ _) as [|v t] eqn:F.
      * left. split; [now exists s|]. split; [|reflexivity].
        intros v Hv. apply M in Hv. destruct Hv.
      * right. left. split; [now exists s|]. split.
        { intros v' Hv'. apply M in Hv'. rewrite forallb_forall in R. now apply R. }
        exists v. split; [|reflexivity]. apply M. now left.
    + right. right. split; [now exists s|]. split; [|reflexivity].
      apply forallb_false_witness in R. destruct R as (v & Hv & Rv).
      exists v. split; [now apply M | exact Rv].
  - left. split; [exact Hn|]. now erewrite bind_inl by exact E.
Qed.





(* ===================================================================== *)
(** ** The guards and the id generator on the sample store *)

Example guard_owner :
  getOwnedSpeech "s1" "alice" (at_time 2000) sample
  = (inr toast, issue (SELECT TSpeeches) sample).
Proof. reflexivity. Qed.

Example guard_other_owner :
  getOwnedSpeech "s1" "bob" (at_time 2000) sample
  = (inl SpeechNotFound, issue (SELECT TSpeeches) sample).
Proof. reflexivity. Qed.

Example guard_version_under_other_speech :
  fst (getOwnedSpeechVersion "v1" "s2" "bob" (at_time 2000) sample) = inl VersionNotFound.
Proof. reflexivity. Qed.

Example number_accepts_fraction :
  z.optional z.number (JNum 2.5%float) = Some (Some 2.5%float).
Proof. reflexivity. Qed.

Example number_rejects_nan : z.optional z.number (JNum PrimFloat.nan) = None.
Proof. reflexivity. Qed.

Example uuid_of_zero :
  uuid_string 0 = "00000000-0000-4000-8000-000000000000".
Proof. reflexivity. Qed.

Example uuid_of_ones :
  uuid_string (2 ^ 128 - 1) = "ffffffff-ffff-4fff-bfff-ffffffffffff".
Proof. reflexivity. Qed.

(* ===================================================================== *)
(** ** Listing speeches *)

Lemma listSpeeches_input_accepts raw :
  raw = JUndefined \/ (exists props, raw = JObj props) ->
  exists i, server.listSpeeches.input raw = Some i.
Proof.
  intros [->|(props & ->)]; eexists; reflexivity.
Qed.

Lemma listSpeeches_handler_run i context u env w :
  caller context = Some u ->
  server.listSpeeches.handler i context env w =
  (inr {| items := filter (fun r => String.eqb (Speeches.userId r) (App.id u))
                          (Speeches_rows (db w));
          total := List.length
                     (filter (fun r => String.eqb (Speeches.userId r) (App.id u))
                             (Speeches_rows (db w))) |},
   issue (SELECT TSpeeches) w).
Proof.
  intros Hu. unfold server.listSpeeches.handler.
  erewrite bind_inr by (apply requireUser_signed_in; exact Hu).
  reflexivity.
Qed.

(** C2. For an authenticated caller and any store, [listSpeeches]
    succeeds and returns exactly the stored speeches whose [userId] is
    the caller's id, with their count; no returned row has another
    [userId]; the store is left as it was. *)
Theorem listSpeeches_returns_callers_rows raw context u env w :
  caller context = Some u ->
  raw = JUndefined \/ (exists props, raw = JObj props) ->
  exists l,
    server.listSpeeches.action raw context env w = (inr l, issue (SELECT TSpeeches) w) /\
    (forall r, In r (items l) <->
               In r (Speeches_rows (db w)) /\ Speeches.userId r = App.id u) /\
    (forall r, In r (items l) -> Speeches.userId r = App.id u) /\
    total l = List.length (items l).
Proof.
  intros Hu Hraw.
  destruct (listSpeeches_input_accepts raw Hraw) as (i & Hi).
  unfold server.listSpeeches.action.
  erewrite defineAction_parsed by exact Hi. erewrite listSpeeches_handler_run by exact Hu.
  eexists. split; [reflexivity|]. simpl.
  assert (M : forall r,
             In r (filter (fun r => String.eqb (Speeches.userId r) (App.id u))
                          (Speeches_rows (db w)))
             <-> In r (Speeches_rows (db w)) /\ Speeches.userId r = App.id u).
  { intros r. now rewrite filter_In, String.eqb_eq. }
  split; [exact M|]. split; [|reflexivity].
  intros r Hr. now apply M in Hr.
Qed.

Lemma listSpeeches_returns_callers_rows_witness :
  exists l,
    server.listSpeeches.action JUndefined (as_user alice) (at_time 2000) sample
    = (inr l, issue (SELECT TSpeeches) sample) /\
    (forall r, In r (items l) <->
               In r (Speeches_rows (db sample)) /\ Speeches.userId r = App.id alice) /\
    (forall r, In r (items l) -> Speeches.userId r = App.id alice) /\
    total l = List.length (items l).
Proof.
  apply (listSpeeches_returns_callers_rows JUndefined (as_user alice) alice
                                          (at_time 2000) sample).
  - reflexivity.
  - left. reflexivity.
Defined.

Example listSpeeches_alice :
  fst (server.listSpeeches.action (JObj []) (as_user alice) (at_time 2000) sample)
  = inr {| items := [toast]; total := 1 |}.
Proof. reflexivity. Qed.

(* ===================================================================== *)
(** ** Creating a speech *)

Lemma uuid_string_length r : String.length (uuid_string r) = 36.
Proof. reflexivity. Qed.

Lemma uuid_string_nonempty r : uuid_string r <> "".
Proof.
  intros H. apply (f_equal String.length) in H.
  rewrite uuid_string_length in H. discriminate.
Qed.

Lemma id_taken_iff (rows : list Speeches.row) i :
  existsb (fun r' => String.eqb (Speeches.id r') i) rows = true
  <-> In i (map Speeches.id rows).
Proof.
  rewrite existsb_exists, in_map_iff.
  split; intros (r & H1 & H2); exists r.
  - apply String.eqb_eq in H2. tauto.
  - rewrite String.eqb_eq. tauto.
Qed.

Lemma createSpeech_handler_run inp context u env w :
  caller context = Some u ->
  server.createSpeech.handler inp context env w =
  if existsb (fun r' => String.eqb (Speeches.id r') (uuid_string (entropy env)))
             (Speeches_rows (db w))
  then (inl (ConstraintError TSpeeches), issue (INSERT TSpeeches) w)
  else (inr (Some (Speeches.written (new_speech inp u env))),
        {| db := {| Speeches_rows :=
                      Speeches_rows (db w) ++ [Speeches.written (new_speech inp u env)];
                    SpeechVersions_rows := SpeechVersions_rows (db w) |};
           issued := issued w ++ [INSERT TSpeeches] |}).
Proof.
  intros Hu. unfold server.createSpeech.handler.
  erewrite bind_inr by (apply requireUser_signed_in; exact Hu).
  unfold bind, new_Date, randomUUID, Db.insert_Speeches, new_speech. simpl.
  destruct (existsb _ _); reflexivity.
Qed.

(** A parsed [createSpeech] input has a title of length at least 1. *)
Lemma createSpeech_input_title raw inp :
  server.createSpeech.input raw = Some inp ->
  prop raw "title" = JStr (server.createSpeech.title inp) /\
  1 <= String.length (server.createSpeech.title inp).
Proof.
  unfold server.createSpeech.input, z.object.
  destruct raw as [| | | | | |props]; try discriminate.
  simpl prop.
  destruct (lookup_prop "title" props) as [| | | |t| |]; try discriminate.
  unfold z.string_min.
  destruct (Nat.leb 1 (String.length t)) eqn:L; [|discriminate].
  destruct (z.optional z.string _); [|discriminate].
  destruct (z.optional z.string _); [|discriminate].
  destruct (z.optional z.string _); [|discriminate].
  destruct (z.optional z.string _); [|discriminate].
  intros [= <-]. simpl. split; [reflexivity|]. now apply Nat.leb_le.
Qed.

(** C3. For a valid [createSpeech] input and an authenticated caller,
    the returned speech has a non-empty generated id that no stored
    speech had before, [createdAt = updatedAt], and the caller's id as
    [userId]; and the call does return such a row whenever the generated
    id is not already taken. *)
Theorem createSpeech_returns_fresh_row raw inp context u env w :
  caller context = Some u ->
  server.createSpeech.input raw = Some inp ->
  (forall speech w',
      server.createSpeech.action raw context env w = (inr (Some speech), w') ->
      Speeches.id speech <> "" /\
      ~ In (Speeches.id speech) (map Speeches.id (Speeches_rows (db w))) /\
      Speeches.createdAt speech = Speeches.updatedAt speech /\
      Speeches.userId speech = App.id u /\
      In speech (Speeches_rows (db w'))) /\
  (~ In (uuid_string (entropy env)) (map Speeches.id (Speeches_rows (db w))) ->
   exists speech w',
     server.createSpeech.action raw context env w = (inr (Some speech), w')).
Proof.
  intros Hu Hi. unfold server.createSpeech.action.
  erewrite defineAction_parsed by exact Hi.
  rewrite (createSpeech_handler_run inp context u env w Hu).
  destruct (existsb _ _) eqn:T.
  - split; [intros speech w' [=]|].
    intros Hfresh. apply id_taken_iff in T. contradiction.
  - split.
    + intros speech w' [= <- <-]. simpl.
      split; [apply uuid_string_nonempty|].
      split; [intros Hin; apply id_taken_iff in Hin; congruence|].
      split; [reflexivity|]. split; [reflexivity|].
      apply in_or_app. right. now left.
    + intros _. eexists. eexists. reflexivity.
Qed.

Lemma createSpeech_returns_fresh_row_witness :
  (forall speech w',
      server.createSpeech.action wedding_toast_request (as_user alice) (at_time 2000) sample
      = (inr (Some speech), w') ->
      Speeches.id speech <> "" /\
      ~ In (Speeches.id speech) (map Speeches.id (Speeches_rows (db sample))) /\
      Speeches.createdAt speech = Speeches.updatedAt speech /\
      Speeches.userId speech = App.id alice /\
      In speech (Speeches_rows (db w'))) /\
  (~ In (uuid_string (entropy (at_time 2000))) (map Speeches.id (Speeches_rows (db sample))) ->
   exists speech w',
     server.createSpeech.action wedding_toast_request (as_user alice) (at_time 2000) sample
     = (inr (Some speech), w')).
Proof.
  apply (createSpeech_returns_fresh_row
           wedding_toast_request
           {| server.createSpeech.title := "Wedding Toast";
              server.createSpeech.occasion := None;
              server.createSpeech.audience := None;
              server.createSpeech.language := None;
              server.createSpeech.notes := None |}
           (as_user alice) alice (at_time 2000) sample).
  - reflexivity.
  - reflexivity.
Defined.

Example createSpeech_sample :
  fst (server.createSpeech.action wedding_toast_request (as_user alice) (at_time 2000) sample)
  = inr (Some {| Speeches.id := "00000000-0000-4000-8000-000000000000";
                 Speeches.userId := "alice"; Speeches.title := "Wedding Toast";
                 Speeches.occasion := None; Speeches.audience := None;
                 Speeches.language := None; Speeches.notes := None;
                 Speeches.createdAt := 2000; Speeches.updatedAt := 2000 |}).
Proof. reflexivity. Qed.

Example createSpeech_empty_title :
  server.createSpeech.action (JObj [("title", JStr "")]) (as_user alice) (at_time 2000) sample
  = (inl ValidationError, sample).
Proof. reflexivity. Qed.

(* ===================================================================== *)
(** ** Updating a speech *)

Lemma primary_key_unique (rows : list Speeches.row) a b :
  NoDup (map Speeches.id rows) ->
  In a rows -> In b rows -> Speeches.id a = Speeches.id b -> a = b.
Proof.
  induction rows as [|r rows IH]; simpl; [intros _ []|].
  intros ND Ha Hb E. inversion ND as [|? ? Hnotin ND']; subst.
  destruct Ha as [<-|Ha], Hb as [<-|Hb].
  - reflexivity.
  - exfalso. apply Hnotin. rewrite E. now apply in_map.
  - exfalso. apply Hnotin. rewrite <- E. now apply in_map.
  - now apply IH.
Qed.

Lemma select_by_primary_key (rows : list Speeches.row) old :
  NoDup (map Speeches.id rows) -> In old rows ->
  filter (fun r => String.eqb (Speeches.id r) (Speeches.id old)) rows = [old].
Proof.
  induction rows as [|r rows IH]; simpl; [intros _ []|].
  intros ND Hin. inversion ND as [|? ? Hnotin ND']; subst.
  destruct (String.eqb_spec (Speeches.id r) (Speeches.id old)) as [E|NE].
  - assert (r = old) as ->.
    { destruct Hin as [H|H]; [exact H|].
      exfalso. apply Hnotin. rewrite E. now apply in_map. }
    f_equal. apply filter_nil_iff. intros x Hx.
    apply String.eqb_neq. intros E'. apply Hnotin. rewrite <- E'. now apply in_map.
  - destruct Hin as [H|H]; [congruence|]. now apply IH.
Qed.

Lemma updateSpeech_handler_run inp context u env w old :
  caller context = Some u ->
  owned_speech (db w) (server.updateSpeech.id inp) (App.id u) old ->
  let p := fun r => String.eqb (Speeches.id r) (server.updateSpeech.id inp) in
  let s := Speeches.written_set (speech_changes inp env) in
  server.updateSpeech.handler inp context env w =
  (inr (hd_error (map (Speeches.apply s) (filter p (Speeches_rows (db w))))),
   {| db := {| Speeches_rows :=
                 map (fun r => if p r then Speeches.apply s r else r) (Speeches_rows (db w));
               SpeechVersions_rows := SpeechVersions_rows (db w) |};
      issued := (issued w ++ [SELECT TSpeeches]) ++ [UPDATE TSpeeches] |}).
Proof.
  intros Hu Hold p s. unfold server.updateSpeech.handler.
  erewrite bind_inr by (apply requireUser_signed_in; exact Hu).
  destruct (getOwnedSpeech_cases (server.updateSpeech.id inp) (App.id u) env w)
    as [(s0 & _ & E)|(Hn & _)]; [|now destruct (Hn old)].
  erewrite bind_inr by exact E.
  reflexivity.
Qed.

(** A parsed [updateSpeech] input supplies at least one mutable field,
    and names a field exactly when the request carries it. *)
Lemma updateSpeech_input_supplies raw inp :
  server.updateSpeech.input raw = Some inp ->
  defined (server.updateSpeech.title inp) || defined (server.updateSpeech.occasion inp)
  || defined (server.updateSpeech.audience inp) || defined (server.updateSpeech.language inp)
  || defined (server.updateSpeech.notes inp) = true.
Proof.
  unfold server.updateSpeech.input, z.refine.
  destruct (z.object _ raw) as [i|]; [|discriminate].
  destruct (_ || _) eqn:P; [|discriminate].
  now intros [= <-].
Qed.

(** C4 (as the code has it). An [updateSpeech] call by the owning caller
    with a valid input (which supplies at least one mutable field)
    returns the updated row; that row is the one stored under the id
    afterwards; in every field present in the input it holds the
    supplied value as the store keeps it (the text up to its first
    U+0000) and in every field omitted the old value, [id], [userId]
    and [createdAt] included; [updatedAt] is set to the time of the call,
    so it increases strictly whenever that time is later than the stored
    [updatedAt]; no other row changes. *)
Theorem updateSpeech_partial_update raw inp context u env w old :
  NoDup (map Speeches.id (Speeches_rows (db w))) ->
  caller context = Some u ->
  server.updateSpeech.input raw = Some inp ->
  owned_speech (db w) (server.updateSpeech.id inp) (App.id u) old ->
  exists new w',
    server.updateSpeech.action raw context env w = (inr (Some new), w') /\
    In new (Speeches_rows (db w')) /\
    (forall r, In r (Speeches_rows (db w')) ->
               Speeches.id r = server.updateSpeech.id inp -> r = new) /\
    Speeches.title new
    = match server.updateSpeech.title inp with
      | Some t => Driver.text t | None => Speeches.title old end /\
    Speeches.occasion new
    = match server.updateSpeech.occasion inp with
      | Some t => Some (Driver.text t) | None => Speeches.occasion old end /\
    Speeches.audience new
    = match server.updateSpeech.audience inp with
      | Some t => Some (Driver.text t) | None => Speeches.audience old end /\
    Speeches.language new
    = match server.updateSpeech.language inp with
      | Some t => Some (Driver.text t) | None => Speeches.language old end /\
    Speeches.notes new
    = match server.updateSpeech.notes inp with
      | Some t => Some (Driver.text t) | None => Speeches.notes old end /\
    Speeches.id new = Speeches.id old /\
    Speeches.userId new = Speeches.userId old /\
    Speeches.createdAt new = Speeches.createdAt old /\
    Speeches.updatedAt new = clock env /\
    ((Speeches.updatedAt old < clock env)%Z ->
     (Speeches.updatedAt old < Speeches.updatedAt new)%Z) /\
    (forall r, Speeches.id r <> server.updateSpeech.id inp ->
               (In r (Speeches_rows (db w')) <-> In r (Speeches_rows (db w)))) /\
    SpeechVersions_rows (db w') = SpeechVersions_rows (db w).
Proof.
  intros ND Hu Hi Hold. unfold server.updateSpeech.action.
  erewrite defineAction_parsed by exact Hi.
  rewrite (updateSpeech_handler_run inp context u env w old Hu Hold).
  destruct Hold as (Hin & Hid & Huid).
  set (s := Speeches.written_set (speech_changes inp env)).
  set (p := fun r => String.eqb (Speeches.id r) (server.updateSpeech.id inp)).
  assert (F : filter p (Speeches_rows (db w)) = [old]).
  { unfold p. rewrite <- Hid. now apply select_by_primary_key. }
  assert (Pold : String.eqb (Speeches.id old) (server.updateSpeech.id inp) = true)
    by now apply String.eqb_eq.
  rewrite F. simpl map. simpl hd_error.
  exists (Speeches.apply s old). eexists. split; [reflexivity|].
  cbn [db Speeches_rows SpeechVersions_rows]. cbv beta.
  split.
  { apply in_map_iff. exists old. now rewrite Pold. }
  split.
  { intros r Hr Er. apply in_map_iff in Hr. destruct Hr as (r0 & <- & Hr0).
    destruct (String.eqb_spec (Speeches.id r0) (server.updateSpeech.id inp)) as [E0|N0].
    - f_equal. apply (primary_key_unique (Speeches_rows (db w))); auto. congruence.
    - contradiction. }
  unfold s, speech_changes, Speeches.written_set, Speeches.apply, Speeches.assign. simpl.
  split; [now destruct (server.updateSpeech.title inp)|].
  split; [now destruct (server.updateSpeech.occasion inp)|].
  split; [now destruct (server.updateSpeech.audience inp)|].
  split; [now destruct (server.updateSpeech.language inp)|].
  split; [now destruct (server.updateSpeech.notes inp)|].
  repeat (split; [reflexivity | ]).
  split; [intros H; exact H|].
  split; [|reflexivity].
  intros r Hr. rewrite in_map_iff. split.
  - intros (r0 & E0 & Hr0).
    destruct (String.eqb_spec (Speeches.id r0) (server.updateSpeech.id inp)) as [E1|N1].
    + exfalso. apply Hr. rewrite <- E0. exact E1.
    + now subst r0.
  - intros Hin'. exists r. split; [|exact Hin'].
    destruct (String.eqb_spec (Speeches.id r) (server.updateSpeech.id inp)); [contradiction|].
    reflexivity.
Qed.

Lemma sample_primary_keys : primary_keys sample_db.
Proof.
  split; simpl; repeat constructor; simpl; intuition discriminate.
Defined.

Lemma updateSpeech_partial_update_witness :
  exists new w',
    server.updateSpeech.action retitle_request (as_user alice) (at_time 3000) sample
    = (inr (Some new), w') /\
    In new (Speeches_rows (db w')) /\
    Speeches.title new = "Rehearsal Toast" /\
    Speeches.occasion new = Speeches.occasion toast /\
    Speeches.id new = Speeches.id toast /\
    Speeches.userId new = Speeches.userId toast /\
    Speeches.createdAt new = Speeches.createdAt toast /\
    (Speeches.updatedAt toast < Speeches.updatedAt new)%Z.
Proof.
  destruct (updateSpeech_partial_update
              retitle_request retitle_input (as_user alice) alice (at_time 3000) sample toast)
    as (new & w' & Hrun & Hin & _ & Ht & Ho & _ & _ & _ & Hid & Hu & Hc & _ & Hlt & _).
  - exact (proj1 sample_primary_keys).
  - reflexivity.
  - reflexivity.
  - split; [left; reflexivity | split; reflexivity].
  - exists new, w'. repeat split; try assumption.
    apply Hlt. reflexivity.
Defined.

(** C4, refuted as stated: an update issued at the clock reading the
    row was created at leaves [updatedAt] where it was. *)
Lemma updateSpeech_same_instant :
  exists old new w',
    Speeches_rows (db after_create) = [old] /\
    Speeches.userId old = App.id alice /\
    server.updateSpeech.action
      (JObj [("id", JStr (Speeches.id old)); ("title", JStr "Toast")])
      (as_user alice) (at_time 2000) after_create
    = (inr (Some new), w') /\
    Speeches_rows (db w') = [new] /\
    Speeches.title new = "Toast" /\
    ~ (Speeches.updatedAt old < Speeches.updatedAt new)%Z.
Proof.
  eexists. eexists. eexists.
  split; [reflexivity|]. split; [reflexivity|].
  split; [reflexivity|]. split; [reflexivity|]. split; [reflexivity|].
  simpl. discriminate.
Qed.

(* ===================================================================== *)
(** ** Updates that name no field *)

Lemma updateSpeech_input_needs_a_field raw :
  prop raw "title" = JUndefined ->
  prop raw "occasion" = JUndefined ->
  prop raw "audience" = JUndefined ->
  prop raw "language" = JUndefined ->
  prop raw "notes" = JUndefined ->
  server.updateSpeech.input raw = None.
Proof.
  unfold server.updateSpeech.input, z.refine, z.object.
  destruct raw as [| | | | | |props]; try reflexivity.
  simpl prop. intros -> -> -> -> ->.
  destruct (z.string_min 1 _); reflexivity.
Qed.

Lemma updateSpeechVersion_input_needs_a_field raw :
  prop raw "versionLabel" = JUndefined ->
  prop raw "tone" = JUndefined ->
  prop raw "targetDurationMinutes" = JUndefined ->
  prop raw "scriptText" = JUndefined ->
  prop raw "isPreferred" = JUndefined ->
  server.updateSpeechVersion.input raw = None.
Proof.
  unfold server.updateSpeechVersion.input, z.refine, z.object.
  destruct raw as [| | | | | |props]; try reflexivity.
  simpl prop. intros -> -> -> -> ->.
  destruct (z.string_min 1 _); [|reflexivity].
  destruct (z.string_min 1 _); reflexivity.
Qed.

(** C5. An [updateSpeech] or [updateSpeechVersion] request in which none
    of the mutable fields is present fails with a ValidationError and
    leaves the world as it was: no statement is issued (so neither the
    guard's reads nor the update run) and the store is unchanged. *)
Theorem update_without_fields_rejected raw context env w :
  (prop raw "title" = JUndefined ->
   prop raw "occasion" = JUndefined ->
   prop raw "audience" = JUndefined ->
   prop raw "language" = JUndefined ->
   prop raw "notes" = JUndefined ->
   server.updateSpeech.action raw context env w = (inl ValidationError, w)) /\
  (prop raw "versionLabel" = JUndefined ->
   prop raw "tone" = JUndefined ->
   prop raw "targetDurationMinutes" = JUndefined ->
   prop raw "scriptText" = JUndefined ->
   prop raw "isPreferred" = JUndefined ->
   server.updateSpeechVersion.action raw context env w = (inl ValidationError, w)).
Proof.
  split; intros H1 H2 H3 H4 H5.
  - apply defineAction_rejected. now apply updateSpeech_input_needs_a_field.
  - apply defineAction_rejected. now apply updateSpeechVersion_input_needs_a_field.
Qed.

Lemma update_without_fields_rejected_witness :
  server.updateSpeech.action bare_update_request (as_user alice) (at_time 3000) sample
  = (inl ValidationError, sample) /\
  server.updateSpeechVersion.action bare_update_request (as_user alice) (at_time 3000) sample
  = (inl ValidationError, sample).
Proof.
  destruct (update_without_fields_rejected
              bare_update_request (as_user alice) (at_time 3000) sample) as [H1 H2].
  split; [apply H1 | apply H2]; reflexivity.
Defined.

(* ===================================================================== *)
(** ** Listing the versions of a speech *)

Lemma filter_and_flag {A} (a b : A -> bool) (l : list A) :
  filter (fun r => a r && Bool.eqb (b r) true) l = filter b (filter a l).
Proof.
  induction l as [|x l IH]; simpl; [reflexivity|].
  destruct (a x) eqn:Ha, (b x) eqn:Hb; simpl; rewrite ?Hb, IH; reflexivity.
Qed.

Lemma listSpeechVersions_handler_run inp context u env w s :
  caller context = Some u ->
  owned_speech (db w) (server.listSpeechVersions.speechId inp) (App.id u) s ->
  let versions :=
    filter (if server.listSpeechVersions.preferredOnly inp
            then fun r => String.eqb (SpeechVersions.speechId r)
                                     (server.listSpeechVersions.speechId inp)
                          && Bool.eqb (SpeechVersions.isPreferred r) true
            else fun r => String.eqb (SpeechVersions.speechId r)
                                     (server.listSpeechVersions.speechId inp))
           (SpeechVersions_rows (db w)) in
  server.listSpeechVersions.handler inp context env w =
  (if forallb SpeechVersions.readable versions
   then inr {| items := versions; total := List.length versions |}
   else inl RangeError,
   issue (SELECT TSpeechVersions) (issue (SELECT TSpeeches) w)).
Proof.
  intros Hu Hs versions. unfold server.listSpeechVersions.handler.
  erewrite bind_inr by (apply requireUser_signed_in; exact Hu).
  destruct (getOwnedSpeech_cases (server.listSpeechVersions.speechId inp) (App.id u) env w)
    as [(s0 & _ & E)|(Hn & _)]; [|now destruct (Hn s)].
  erewrite bind_inr by exact E.
  unfold bind, Db.select_SpeechVersions. simpl db. fold versions.
  destruct (forallb SpeechVersions.readable versions); reflexivity.
Qed.

Lemma readable_selection (q : SpeechVersions.row -> bool) rows :
  (forall v, In v rows -> q v = true -> SpeechVersions.readable v = true) ->
  forallb SpeechVersions.readable (filter q rows) = true.
Proof.
  intros H. apply forallb_forall. intros v Hv. apply filter_In in Hv.
  now apply H.
Qed.

(** C6 (as the code has it). For an owned [speechId] whose stored
    versions the driver can read back, both listings return, and the
    items of [listSpeechVersions] with [preferredOnly = true] are the
    items of the call with [preferredOnly = false] that have
    [isPreferred = true], in the same order: a subset, holding exactly
    the versions of that speech whose flag is set, and a strict one
    exactly when the speech has a version whose flag is not set. *)
Theorem listSpeechVersions_preferred_subset
        raw_p raw_a inp_p inp_a sid context u env_p env_a w s :
  caller context = Some u ->
  owned_speech (db w) sid (App.id u) s ->
  (forall v, In v (SpeechVersions_rows (db w)) -> SpeechVersions.speechId v = sid ->
             SpeechVersions.readable v = true) ->
  server.listSpeechVersions.input raw_p = Some inp_p ->
  server.listSpeechVersions.input raw_a = Some inp_a ->
  server.listSpeechVersions.speechId inp_p = sid ->
  server.listSpeechVersions.speechId inp_a = sid ->
  server.listSpeechVersions.preferredOnly inp_p = true ->
  server.listSpeechVersions.preferredOnly inp_a = false ->
  exists lp la w',
    server.listSpeechVersions.action raw_p context env_p w = (inr lp, w') /\
    server.listSpeechVersions.action raw_a context env_a w = (inr la, w') /\
    items lp = filter SpeechVersions.isPreferred (items la) /\
    incl (items lp) (items la) /\
    (forall v, In v (items lp) <->
               In v (SpeechVersions_rows (db w)) /\ SpeechVersions.speechId v = sid
               /\ SpeechVersions.isPreferred v = true) /\
    (forall v, In v (items la) <->
               In v (SpeechVersions_rows (db w)) /\ SpeechVersions.speechId v = sid) /\
    ((exists v, In v (items la) /\ ~ In v (items lp)) <->
     (exists v, In v (SpeechVersions_rows (db w)) /\ SpeechVersions.speechId v = sid
                /\ SpeechVersions.isPreferred v = false)).
Proof.
  intros Hu Hs Hread Hp Ha Sp Sa Pp Pa.
  unfold server.listSpeechVersions.action.
  erewrite (defineAction_parsed _ _ raw_p) by exact Hp.
  erewrite (defineAction_parsed _ _ raw_a) by exact Ha.
  rewrite (listSpeechVersions_handler_run inp_p context u env_p w s Hu)
    by (rewrite Sp; exact Hs).
  rewrite (listSpeechVersions_handler_run inp_a context u env_a w s Hu)
    by (rewrite Sa; exact Hs).
  rewrite Sp, Sa, Pp, Pa. cbv zeta.
  rewrite !readable_selection.
  2:{ intros v Hv Q. apply String.eqb_eq in Q. now apply Hread. }
  2:{ intros v Hv Q. apply andb_true_iff in Q. destruct Q as [Q _].
      apply String.eqb_eq in Q. now apply Hread. }
  do 3 eexists. split; [reflexivity|]. split; [reflexivity|].
  cbn [items]. rewrite filter_and_flag.
  set (all := filter (fun r => String.eqb (SpeechVersions.speechId r) sid)
                     (SpeechVersions_rows (db w))).
  assert (Hall : forall v, In v all <->
                           In v (SpeechVersions_rows (db w))
                           /\ SpeechVersions.speechId v = sid).
  { intros v. unfold all. now rewrite filter_In, String.eqb_eq. }
  assert (Hpref : forall v, In v (filter SpeechVersions.isPreferred all) <->
                            In v (SpeechVersions_rows (db w))
                            /\ SpeechVersions.speechId v = sid
                            /\ SpeechVersions.isPreferred v = true).
  { intros v. rewrite filter_In, Hall. tauto. }
  split; [reflexivity|].
  split; [intros v Hv; apply filter_In in Hv; tauto|].
  split; [exact Hpref|]. split; [exact Hall|].
  split.
  - intros (v & Hin & Hout). exists v. apply Hall in Hin.
    destruct Hin as [Hin Hsid]. split; [exact Hin|]. split; [exact Hsid|].
    destruct (SpeechVersions.isPreferred v) eqn:P; [|reflexivity].
    exfalso. apply Hout, Hpref. tauto.
  - intros (v & Hin & Hsid & P). exists v. split; [apply Hall; tauto|].
    intros Hv. apply Hpref in Hv. destruct Hv as (_ & _ & P'). congruence.
Qed.

Lemma listSpeechVersions_preferred_subset_witness :
  exists lp la w',
    server.listSpeechVersions.action (versions_request true) (as_user alice)
                                     (at_time 3000) sample = (inr lp, w') /\
    server.listSpeechVersions.action (JObj [("speechId", JStr "s1")]) (as_user alice)
                                     (at_time 3001) sample = (inr la, w') /\
    items lp = filter SpeechVersions.isPreferred (items la) /\
    incl (items lp) (items la) /\
    (forall v, In v (items lp) <->
               In v (SpeechVersions_rows (db sample)) /\ SpeechVersions.speechId v = "s1"
               /\ SpeechVersions.isPreferred v = true) /\
    (forall v, In v (items la) <->
               In v (SpeechVersions_rows (db sample)) /\ SpeechVersions.speechId v = "s1") /\
    ((exists v, In v (items la) /\ ~ In v (items lp)) <->
     (exists v, In v (SpeechVersions_rows (db sample)) /\ SpeechVersions.speechId v = "s1"
                /\ SpeechVersions.isPreferred v = false)).
Proof.
  apply (listSpeechVersions_preferred_subset
           (versions_request true) (JObj [("speechId", JStr "s1")])
           {| server.listSpeechVersions.speechId := "s1";
              server.listSpeechVersions.preferredOnly := true |}
           {| server.listSpeechVersions.speechId := "s1";
              server.listSpeechVersions.preferredOnly := false |}
           "s1" (as_user alice) alice (at_time 3000) (at_time 3001) sample toast).
  - reflexivity.
  - split; [left; reflexivity | split; reflexivity].
  - intros v Hin _. simpl in Hin. destruct Hin as [<-|[<-|[]]]; reflexivity.
  - reflexivity.
  - reflexivity.
  - reflexivity.
  - reflexivity.
  - reflexivity.
  - reflexivity.
Defined.

(** C6, refuted as stated: when every version of the speech is preferred
    the two listings coincide, so the first is not a strict subset of the
    second. *)
Lemma listSpeechVersions_not_strict :
  exists lp la,
    fst (server.listSpeechVersions.action (versions_request true) (as_user alice)
                                          (at_time 3000) all_preferred) = inr lp /\
    fst (server.listSpeechVersions.action (versions_request false) (as_user alice)
                                          (at_time 3000) all_preferred) = inr la /\
    items lp = [toast_formal] /\
    items la = [toast_formal] /\
    ~ (exists v, In v (items la) /\ ~ In v (items lp)).
Proof.
  exists {| items := [toast_formal]; total := 1 |}, {| items := [toast_formal]; total := 1 |}.
  split; [reflexivity|]. split; [reflexivity|].
  split; [reflexivity|]. split; [reflexivity|].
  intros (v & Hin & Hout). contradiction.
Qed.

Example listSpeechVersions_sample :
  fst (server.listSpeechVersions.action (versions_request true) (as_user alice)
                                        (at_time 3000) sample)
  = inr {| items := [toast_formal]; total := 1 |}
  /\ fst (server.listSpeechVersions.action (versions_request false) (as_user alice)
                                           (at_time 3000) sample)
     = inr {| items := [toast_formal; toast_short]; total := 2 |}
  /\ fst (server.listSpeechVersions.action (versions_request false) (as_user bob)
                                           (at_time 3000) sample)
     = inl SpeechNotFound.
Proof. repeat split. Qed.

(* ===================================================================== *)
(** ** Deleting a version *)

Lemma delete_checked_run inp env w :
  server.deleteSpeechVersion.delete_checked inp env w =
  (match filter (fun r => String.eqb (SpeechVersions.id r) (server.deleteSpeechVersion.id inp))
                (SpeechVersions_rows (db w)) with
   | [] => inl VersionNotFound
   | _ :: _ => inr tt
   end,
   without_version (server.deleteSpeechVersion.id inp) w).
Proof.
  unfold server.deleteSpeechVersion.delete_checked, bind, Db.delete_SpeechVersions.
  destruct (filter _ _); reflexivity.
Qed.


Lemma owned_speech_same_rows d d' speechId userId s :
  Speeches_rows d' = Speeches_rows d ->
  owned_speech d speechId userId s -> owned_speech d' speechId userId s.
Proof. unfold owned_speech. now intros ->. Qed.

Lemma deleteSpeechVersion_handler_run inp context u env w s v :
  caller context = Some u ->
  owned_speech (db w) (server.deleteSpeechVersion.speechId inp) (App.id u) s ->
  version_of (db w) (server.deleteSpeechVersion.id inp)
             (server.deleteSpeechVersion.speechId inp) v ->
  (forall v', version_of (db w) (server.deleteSpeechVersion.id inp)
                         (server.deleteSpeechVersion.speechId inp) v' ->
              SpeechVersions.readable v' = true) ->
  server.deleteSpeechVersion.handler inp context env w =
  (inr tt,
   without_version (server.deleteSpeechVersion.id inp)
                   (issue (SELECT TSpeechVersions) (issue (SELECT TSpeeches) w))).
Proof.
  intros Hu Hs Hv Hread. unfold server.deleteSpeechVersion.handler.
  erewrite bind_inr by (apply requireUser_signed_in; exact Hu).
  destruct (getOwnedSpeechVersion_cases
              (server.deleteSpeechVersion.id inp) (server.deleteSpeechVersion.speechId inp)
              (App.id u) env w)
    as [(Hn & _)|[(_ & Hn & _)|[(_ & _ & v0 & _ & E)|(_ & (v0 & Hv0 & Hu0) & _)]]];
    [now destruct (Hn s) | now destruct (Hn v) | |
     rewrite (Hread v0 Hv0) in Hu0; discriminate].
  erewrite bind_inr by exact E.
  rewrite delete_checked_run. simpl db.
  destruct (filter _ _) as [|x t] eqn:F; [|reflexivity].
  exfalso. destruct Hv as (Hin & Hid & _).
  rewrite filter_nil_iff in F. specialize (F v Hin). simpl in F.
  apply String.eqb_neq in F. contradiction.
Qed.





Example delete_checked_after_race :
  server.deleteSpeechVersion.delete_checked
    {| server.deleteSpeechVersion.id := "v9"; server.deleteSpeechVersion.speechId := "s1" |}
    (at_time 3000) sample
  = (inl VersionNotFound,
     {| db := sample_db; issued := [DELETE TSpeechVersions] |}).
Proof. reflexivity. Qed.

(* ===================================================================== *)
(** ** Validation, then authentication, then persistence *)

Ltac unfold_actions :=
  unfold call, returning, accepts,
    server.createSpeech.action, server.updateSpeech.action, server.listSpeeches.action,
    server.createSpeechVersion.action, server.updateSpeechVersion.action,
    server.deleteSpeechVersion.action, server.listSpeechVersions.action.

Ltac unfold_handlers :=
  unfold server.createSpeech.handler, server.updateSpeech.handler,
    server.listSpeeches.handler, server.createSpeechVersion.handler,
    server.updateSpeechVersion.handler, server.deleteSpeechVersion.handler,
    server.listSpeechVersions.handler.

(** An input the schema refuses never reaches the handler. *)
Lemma call_unparsed op raw context env w :
  accepts op raw = false ->
  call op raw context env w = (inl ValidationError, w).
Proof.
  destruct op; unfold_actions;
    match goal with |- context [defined (?input raw)] => destruct (input raw) eqn:E end;
    simpl; try discriminate; intros _;
    (erewrite bind_inl by (apply defineAction_rejected; exact E)); reflexivity.
Qed.

(** Every handler starts with [requireUser]. *)
Lemma call_anonymous op raw context env w :
  caller context = None ->
  accepts op raw = true ->
  call op raw context env w = (inl Unauthorized, w).
Proof.
  intros Hc.
  destruct op; unfold_actions;
    match goal with |- context [defined (?input raw)] => destruct (input raw) eqn:E end;
    simpl; try discriminate; intros _;
    (erewrite bind_inl; [reflexivity|]);
    (erewrite defineAction_parsed by exact E);
    unfold_handlers;
    (erewrite bind_inl by (apply requireUser_anonymous; exact Hc)); reflexivity.
Qed.

(** C8 (as the code has it). With no authenticated caller, each of the
    seven operations fails before any persistence call and leaves the
    world as it was: with Unauthorized when the input passes the
    operation's validation, with ValidationError when it does not. *)
Theorem anonymous_call_rejected op raw context env w :
  caller context = None ->
  call op raw context env w
  = (inl (if accepts op raw then Unauthorized else ValidationError), w).
Proof.
  intros Hc. destruct (accepts op raw) eqn:V.
  - now apply call_anonymous.
  - now apply call_unparsed.
Qed.

Lemma anonymous_call_rejected_witness :
  call DeleteSpeechVersion (JObj [("id", JStr "v2"); ("speechId", JStr "s1")])
       signed_out (at_time 3000) sample
  = (inl Unauthorized, sample).
Proof.
  apply (anonymous_call_rejected
           DeleteSpeechVersion (JObj [("id", JStr "v2"); ("speechId", JStr "s1")])
           signed_out (at_time 3000) sample).
  reflexivity.
Defined.

(** C8, refuted as stated: an anonymous [updateSpeech] that names no
    mutable field is refused with ValidationError, not Unauthorized. *)
Lemma anonymous_invalid_update_not_unauthorized :
  caller no_locals = None /\
  call UpdateSpeech (JObj [("id", JStr "s1")]) no_locals (at_time 3000) sample
  = (inl ValidationError, sample) /\
  fst (call UpdateSpeech (JObj [("id", JStr "s1")]) no_locals (at_time 3000) sample)
  <> inl Unauthorized.
Proof.
  split; [reflexivity|]. split; [reflexivity|]. discriminate.
Qed.

(** C9. Validation runs before the handler: an input the schema refuses
    yields ValidationError whoever calls, so an anonymous call with such
    an input (an [updateSpeech] naming no mutable field, say) raises
    ValidationError and not Unauthorized; an anonymous call answered
    with Unauthorized had an input that passed validation. *)
Theorem validation_precedes_authentication op raw context env w :
  (accepts op raw = false ->
   call op raw context env w = (inl ValidationError, w)) /\
  (caller context = None ->
   accepts op raw = false ->
   fst (call op raw context env w) <> inl Unauthorized) /\
  (caller context = None ->
   fst (call op raw context env w) = inl Unauthorized ->
   accepts op raw = true) /\
  (caller context = None ->
   (forall k, In k ["title"; "occasion"; "audience"; "language"; "notes"] ->
              prop raw k = JUndefined) ->
   call UpdateSpeech raw context env w = (inl ValidationError, w)).
Proof.
  split; [apply call_unparsed|]. split; [|split].
  - intros _ V. rewrite (call_unparsed op raw context env w V). discriminate.
  - intros _ H. destruct (accepts op raw) eqn:V; [reflexivity|].
    rewrite (call_unparsed op raw context env w V) in H. discriminate.
  - intros _ H. apply call_unparsed. unfold accepts.
    rewrite updateSpeech_input_needs_a_field; [reflexivity| | | | |];
      apply H; simpl; tauto.
Qed.

Lemma validation_precedes_authentication_witness :
  call UpdateSpeech (JObj [("id", JStr "s1")]) signed_out (at_time 3000) sample
  = (inl ValidationError, sample) /\
  accepts UpdateSpeech retitle_request = true.
Proof.
  split.
  - apply (proj1 (validation_precedes_authentication
                    UpdateSpeech (JObj [("id", JStr "s1")]) signed_out (at_time 3000) sample)).
    reflexivity.
  - apply (proj1 (proj2 (proj2 (validation_precedes_authentication
                                  UpdateSpeech retitle_request signed_out (at_time 3000)
                                  sample)))).
    + reflexivity.
    + reflexivity.
Defined.

(* ===================================================================== *)
(** ** The count of a listing *)

(** C10. Whenever [listSpeeches] or [listSpeechVersions] succeeds, the
    [total] it returns is the number of elements of the [items] it
    returns. *)
Theorem listing_total_is_length raw context env w :
  (forall l w', server.listSpeeches.action raw context env w = (inr l, w') ->
                total l = List.length (items l)) /\
  (forall l w', server.listSpeechVersions.action raw context env w = (inr l, w') ->
                total l = List.length (items l)).
Proof.
  split; intros l w'.
  - unfold server.listSpeeches.action, defineAction.
    destruct (server.listSpeeches.input raw) as [i|]; [|discriminate].
    unfold server.listSpeeches.handler, bind.
    destruct (requireUser context env w) as [[e|u] w1]; [discriminate|].
    unfold Db.select_Speeches, ret. intros [= <- _]. reflexivity.
  - unfold server.listSpeechVersions.action, defineAction.
    destruct (server.listSpeechVersions.input raw) as [i|]; [|discriminate].
    unfold server.listSpeechVersions.handler, bind.
    destruct (requireUser context env w) as [[e|u] w1]; [discriminate|].
    destruct (getOwnedSpeech _ _ env w1) as [[e|s] w2]; [discriminate|].
    unfold Db.select_SpeechVersions.
    destruct (forallb _ _); [|discriminate].
    unfold ret. intros [= <- _]. reflexivity.
Qed.

Lemma listing_total_is_length_witness :
  total {| items := [toast]; total := 1 |} = List.length [toast] /\
  total {| items := [toast_formal; toast_short]; total := 2 |}
  = List.length [toast_formal; toast_short].
Proof.
  split.
  - apply (proj1 (listing_total_is_length JUndefined (as_user alice) (at_time 3000) sample)
                 {| items := [toast]; total := 1 |}
                 (issue (SELECT TSpeeches) sample)).
    reflexivity.
  - apply (proj2 (listing_total_is_length (versions_request false) (as_user alice)
                                          (at_time 3000) sample)
                 {| items := [toast_formal; toast_short]; total := 2 |}
                 (issue (SELECT TSpeechVersions) (issue (SELECT TSpeeches) sample))).
    reflexivity.
Defined.

(* ===================================================================== *)
(** ** The primary keys are an invariant of the store *)

Lemma preserves_ret {A} (a : A) : preserves_keys (ret a).
Proof. intros env w H. exact H. Qed.

Lemma preserves_throw {A} e : preserves_keys (@throw A e).
Proof. intros env w H. exact H. Qed.

Lemma preserves_bind {A B} (m : Action A) (k : A -> Action B) :
  preserves_keys m -> (forall a, preserves_keys (k a)) -> preserves_keys (bind m k).
Proof.
  intros Hm Hk env w H. unfold bind.
  specialize (Hm env w H).
  destruct (m env w) as [[e|a] w1]; simpl in *; [exact Hm|].
  now apply Hk.
Qed.

Lemma keys_survive_filter {R K} (key : R -> K) (keep : R -> bool) :
  forall rows, NoDup (map key rows) -> NoDup (map key (filter keep rows)).
Proof.
  intros rows. induction rows as [|r rows IH]; simpl; intros ND; [constructor|].
  apply NoDup_cons_iff in ND. destruct ND as [Hfresh ND].
  destruct (keep r); simpl; [|now apply IH].
  apply NoDup_cons; [|now apply IH].
  intros Hin. apply Hfresh. apply in_map_iff in Hin. destruct Hin as (r' & E & Hr').
  apply filter_In in Hr'. apply in_map_iff. exists r'. tauto.
Qed.

Lemma NoDup_map_snoc {A B} (f : A -> B) (l : list A) (x : A) :
  NoDup (map f l) -> ~ In (f x) (map f l) -> NoDup (map f (l ++ [x])).
Proof.
  intros ND Hx. rewrite map_app. simpl.
  apply NoDup_app; [exact ND | repeat constructor; intros [] |].
  intros y Hy [<-|[]]. contradiction.
Qed.

Lemma Speeches_apply_keeps_ids s (p : Speeches.row -> bool) rows :
  map Speeches.id (map (fun r => if p r then Speeches.apply s r else r) rows)
  = map Speeches.id rows.
Proof.
  rewrite map_map. apply map_ext. intros r. now destruct (p r).
Qed.

Lemma SpeechVersions_apply_keeps_ids s (p : SpeechVersions.row -> bool) rows :
  map SpeechVersions.id (map (fun r => if p r then SpeechVersions.apply s r else r) rows)
  = map SpeechVersions.id rows.
Proof.
  rewrite map_map. apply map_ext. intros r. now destruct (p r).
Qed.

Lemma version_id_taken_iff (rows : list SpeechVersions.row) i :
  existsb (fun r' => String.eqb (SpeechVersions.id r') i) rows = true
  <-> In i (map SpeechVersions.id rows).
Proof.
  rewrite existsb_exists, in_map_iff.
  split; intros (r & H1 & H2); exists r.
  - apply String.eqb_eq in H2. tauto.
  - rewrite String.eqb_eq. tauto.
Qed.

Lemma preserves_select_Speeches p : preserves_keys (Db.select_Speeches p).
Proof. intros env w H. exact H. Qed.

Lemma preserves_select_SpeechVersions p : preserves_keys (Db.select_SpeechVersions p).
Proof.
  intros env w H. unfold Db.select_SpeechVersions.
  destruct (forallb _ _); exact H.
Qed.

Lemma preserves_insert_Speeches r : preserves_keys (Db.insert_Speeches r).
Proof.
  intros env w [H1 H2]. unfold Db.insert_Speeches.
  destruct (existsb _ _) eqn:T; simpl; [now split|].
  split; [|exact H2]. simpl. apply NoDup_map_snoc; [exact H1|].
  intros Hin. apply id_taken_iff in Hin. simpl in Hin. congruence.
Qed.

Lemma preserves_insert_SpeechVersions r : preserves_keys (Db.insert_SpeechVersions r).
Proof.
  intros env w [H1 H2]. unfold Db.insert_SpeechVersions.
  destruct (negb _); [now split|].
  destruct (existsb _ _) eqn:T; [now split|].
  assert (K : primary_keys
                {| Speeches_rows := Speeches_rows (db w);
                   SpeechVersions_rows :=
                     SpeechVersions_rows (db w) ++ [SpeechVersions.written r] |}).
  { split; [exact H1|]. simpl. apply NoDup_map_snoc; [exact H2|].
    intros Hin. apply version_id_taken_iff in Hin. simpl in Hin. congruence. }
  destruct (SpeechVersions.readable _); exact K.
Qed.

Lemma preserves_update_Speeches s p : preserves_keys (Db.update_Speeches s p).
Proof.
  intros env w [H1 H2]. split; simpl; [|exact H2].
  now rewrite Speeches_apply_keeps_ids.
Qed.

Lemma preserves_update_SpeechVersions s p : preserves_keys (Db.update_SpeechVersions s p).
Proof.
  intros env w [H1 H2]. unfold Db.update_SpeechVersions.
  destruct (negb _); [now split|].
  assert (K : primary_keys
                {| Speeches_rows := Speeches_rows (db w);
                   SpeechVersions_rows :=
                     map (fun r => if p r
                                   then SpeechVersions.apply (SpeechVersions.written_set s) r
                                   else r) (SpeechVersions_rows (db w)) |}).
  { split; simpl; [exact H1|]. now rewrite SpeechVersions_apply_keeps_ids. }
  destruct (forallb _ _); exact K.
Qed.

Lemma preserves_delete_SpeechVersions p : preserves_keys (Db.delete_SpeechVersions p).
Proof.
  intros env w [H1 H2]. split; simpl; [exact H1|].
  now apply keys_survive_filter.
Qed.

Lemma preserves_randomUUID : preserves_keys randomUUID.
Proof. intros env w H. exact H. Qed.

Lemma preserves_new_Date : preserves_keys new_Date.
Proof. intros env w H. exact H. Qed.

Lemma preserves_requireUser context : preserves_keys (requireUser context).
Proof.
  unfold requireUser. destruct (match locals context with Some l => _ | None => _ end);
    [apply preserves_ret | apply preserves_throw].
Qed.

Create HintDb keys.
#[local] Hint Resolve preserves_ret preserves_throw preserves_select_Speeches
  preserves_select_SpeechVersions preserves_insert_Speeches preserves_insert_SpeechVersions
  preserves_update_Speeches preserves_update_SpeechVersions preserves_delete_SpeechVersions
  preserves_randomUUID preserves_new_Date preserves_requireUser : keys.

Ltac keys_step :=
  match goal with
  | |- preserves_keys (bind _ _) => apply preserves_bind; [|intros ?]
  | |- preserves_keys (match ?x with _ => _ end) => destruct x
  | |- preserves_keys _ => solve [auto with keys]
  end.

Lemma preserves_getOwnedSpeech speechId userId :
  preserves_keys (getOwnedSpeech speechId userId).
Proof. unfold getOwnedSpeech. repeat keys_step. Qed.

Lemma preserves_getOwnedSpeechVersion versionId speechId userId :
  preserves_keys (getOwnedSpeechVersion versionId speechId userId).
Proof.
  unfold getOwnedSpeechVersion.
  apply preserves_bind; [apply preserves_getOwnedSpeech|intros _].
  repeat keys_step.
Qed.

#[local] Hint Resolve preserves_getOwnedSpeech preserves_getOwnedSpeechVersion : keys.

(** Whatever is called, by whomever, with whatever input, a store whose
    ids are unique keeps them unique. *)
Lemma call_preserves_primary_keys op raw context :
  preserves_keys (call op raw context).
Proof.
  destruct op; unfold_actions; unfold defineAction;
    (apply preserves_bind; [|intros ?; apply preserves_ret]);
    match goal with |- context [?input raw] => destruct (input raw) end;
    try apply preserves_throw;
    unfold_handlers; unfold server.deleteSpeechVersion.delete_checked;
    repeat keys_step.
Qed.

(* ===================================================================== *)
(** ** Scenarios *)

(** Create a speech, attach a version, list the versions. *)
Example scenario_create_then_list :
  let w1 := snd (server.createSpeech.action wedding_toast_request (as_user alice)
                                            {| entropy := 7; clock := 2000 |} empty_world) in
  let sid := "07000000-0000-4000-8000-000000000000" in
  let w2 := snd (server.createSpeechVersion.action (script_request sid) (as_user alice)
                                                   {| entropy := 9; clock := 2500 |} w1) in
  fst (server.listSpeechVersions.action (JObj [("speechId", JStr sid)]) (as_user alice)
                                        (at_time 2600) w2)
  = inr {| items := [{| SpeechVersions.id := "09000000-0000-4000-8000-000000000000";
                        SpeechVersions.speechId := sid;
                        SpeechVersions.versionLabel := None;
                        SpeechVersions.tone := None;
                        SpeechVersions.targetDurationMinutes := None;
                        SpeechVersions.scriptText := "Hello...";
                        SpeechVersions.isPreferred := false;
                        SpeechVersions.createdAt := 2500 |}];
           total := 1 |}.
Proof. reflexivity. Qed.

(** Mark a version preferred, then list the preferred ones. *)
Example scenario_prefer_then_list :
  let w1 := snd (server.updateSpeechVersion.action
                   (JObj [("id", JStr "v2"); ("speechId", JStr "s1");
                          ("isPreferred", JBool true)])
                   (as_user alice) (at_time 3000) one_draft) in
  fst (server.listSpeechVersions.action (versions_request true) (as_user alice)
                                        (at_time 3100) one_draft)
  = inr {| items := []; total := 0 |}
  /\ fst (server.listSpeechVersions.action (versions_request true) (as_user alice)
                                           (at_time 3100) w1)
     = inr {| items := [SpeechVersions.apply
                          {| SpeechVersions.set_versionLabel := None;
                             SpeechVersions.set_tone := None;
                             SpeechVersions.set_targetDurationMinutes := None;
                             SpeechVersions.set_scriptText := None;
                             SpeechVersions.set_isPreferred := Some true |}
                          toast_short];
              total := 1 |}.
Proof. split; reflexivity. Qed.

(** Another caller's speech is as good as absent. *)
Example scenario_foreign_speech :
  fst (call UpdateSpeech retitle_request (as_user bob) (at_time 3000) sample)
  = inl SpeechNotFound
  /\ fst (call CreateSpeechVersion (script_request "s1") (as_user bob) (at_time 3000) sample)
     = inl SpeechNotFound
  /\ fst (call DeleteSpeechVersion delete_request (as_user bob) (at_time 3000) sample)
     = inl SpeechNotFound.
Proof. repeat split. Qed.

(* ===================================================================== *)
(** ** What a parsed input says about the request *)

Lemma string_min_inv n v s :
  z.string_min n v = Some s -> v = JStr s /\ (n <= String.length s)%nat.
Proof.
  destruct v as [| | | |t| |]; simpl; try discriminate.
  destruct (Nat.leb n (String.length t)) eqn:L; [|discriminate].
  intros [= <-]. split; [reflexivity|]. now apply Nat.leb_le.
Qed.

Lemma updateSpeech_input_id raw inp :
  server.updateSpeech.input raw = Some inp ->
  prop raw "id" = JStr (server.updateSpeech.id inp).
Proof.
  unfold server.updateSpeech.input, z.refine.
  destruct (z.object _ raw) as [i|] eqn:O; [|discriminate].
  destruct (_ || _); [|discriminate]. intros [= <-].
  unfold z.object in O. destruct raw as [| | | | | |props]; try discriminate.
  simpl prop.
  destruct (z.string_min 1 (lookup_prop "id" props)) as [x|] eqn:I; [|discriminate].
  repeat (destruct (z.optional _ _); [|discriminate]).
  injection O as <-. simpl. now apply string_min_inv in I.
Qed.

Lemma createSpeechVersion_input_fields raw inp :
  server.createSpeechVersion.input raw = Some inp ->
  prop raw "speechId" = JStr (server.createSpeechVersion.speechId inp) /\
  prop raw "scriptText" = JStr (server.createSpeechVersion.scriptText inp) /\
  (1 <= String.length (server.createSpeechVersion.scriptText inp))%nat.
Proof.
  unfold server.createSpeechVersion.input, z.object.
  destruct raw as [| | | | | |props]; try discriminate.
  simpl prop.
  destruct (z.string_min 1 (lookup_prop "speechId" props)) as [x|] eqn:I; [|discriminate].
  repeat (destruct (z.optional _ _); [|discriminate]).
  destruct (z.string_min 1 (lookup_prop "scriptText" props)) as [y|] eqn:T; [|discriminate].
  repeat (destruct (z.optional _ _); [|discriminate]).
  intros [= <-]. simpl.
  apply string_min_inv in I. apply string_min_inv in T. tauto.
Qed.

Lemma updateSpeechVersion_input_ids raw inp :
  server.updateSpeechVersion.input raw = Some inp ->
  prop raw "id" = JStr (server.updateSpeechVersion.id inp) /\
  prop raw "speechId" = JStr (server.updateSpeechVersion.speechId inp).
Proof.
  unfold server.updateSpeechVersion.input, z.refine.
  destruct (z.object _ raw) as [i|] eqn:O; [|discriminate].
  destruct (_ || _); [|discriminate]. intros [= <-].
  unfold z.object in O. destruct raw as [| | | | | |props]; try discriminate.
  simpl prop.
  destruct (z.string_min 1 (lookup_prop "id" props)) as [x|] eqn:I; [|discriminate].
  destruct (z.string_min 1 (lookup_prop "speechId" props)) as [y|] eqn:S; [|discriminate].
  repeat (destruct (z.optional _ _); [|discriminate]).
  injection O as <-. simpl.
  apply string_min_inv in I. apply string_min_inv in S. tauto.
Qed.

Lemma deleteSpeechVersion_input_ids raw inp :
  server.deleteSpeechVersion.input raw = Some inp ->
  prop raw "id" = JStr (server.deleteSpeechVersion.id inp) /\
  prop raw "speechId" = JStr (server.deleteSpeechVersion.speechId inp).
Proof.
  unfold server.deleteSpeechVersion.input, z.object.
  destruct raw as [| | | | | |props]; try discriminate.
  simpl prop.
  destruct (z.string_min 1 (lookup_prop "id" props)) as [x|] eqn:I; [|discriminate].
  destruct (z.string_min 1 (lookup_prop "speechId" props)) as [y|] eqn:S; [|discriminate].
  intros [= <-]. simpl.
  apply string_min_inv in I. apply string_min_inv in S. tauto.
Qed.

Lemma listSpeechVersions_input_speechId raw inp :
  server.listSpeechVersions.input raw = Some inp ->
  prop raw "speechId" = JStr (server.listSpeechVersions.speechId inp).
Proof.
  unfold server.listSpeechVersions.input, z.object.
  destruct raw as [| | | | | |props]; try discriminate.
  simpl prop.
  destruct (z.string_min 1 (lookup_prop "speechId" props)) as [x|] eqn:I; [|discriminate].
  destruct (z.default _ _ _); [|discriminate].
  intros [= <-]. simpl. now apply string_min_inv in I.
Qed.

(* ===================================================================== *)
(** ** Speeches and versions the caller does not own *)

Lemma getOwnedSpeech_unowned speechId userId env w :
  (forall s, ~ owned_speech (db w) speechId userId s) ->
  getOwnedSpeech speechId userId env w = (inl SpeechNotFound, issue (SELECT TSpeeches) w).
Proof.
  intros Hn.
  destruct (getOwnedSpeech_cases speechId userId env w) as [(s & Hs & _)|(_ & E)];
    [now destruct (Hn s) | exact E].
Qed.

Lemma getOwnedSpeechVersion_unowned versionId speechId userId env w :
  (forall s, ~ owned_speech (db w) speechId userId s) ->
  getOwnedSpeechVersion versionId speechId userId env w
  = (inl SpeechNotFound, issue (SELECT TSpeeches) w).
Proof.
  intros Hn.
  destruct (getOwnedSpeechVersion_cases versionId speechId userId env w)
    as [(_ & E)|[((s & Hs) & _)|[((s & Hs) & _)|((s & Hs) & _)]]];
    [exact E | now destruct (Hn s) | now destruct (Hn s) | now destruct (Hn s)].
Qed.

Lemma getOwnedSpeechVersion_missing versionId speechId userId env w s :
  owned_speech (db w) speechId userId s ->
  (forall v, ~ version_of (db w) versionId speechId v) ->
  getOwnedSpeechVersion versionId speechId userId env w
  = (inl VersionNotFound, issue (SELECT TSpeechVersions) (issue (SELECT TSpeeches) w)).
Proof.
  intros Hs Hn.
  destruct (getOwnedSpeechVersion_cases versionId speechId userId env w)
    as [(Hno & _)|[(_ & _ & E)|[(_ & _ & v & Hv & _)|(_ & (v & Hv & _) & _)]]];
    [now destruct (Hno s) | exact E | now destruct (Hn v) | now destruct (Hn v)].
Qed.

Lemma getOwnedSpeechVersion_found versionId speechId userId env w s v :
  owned_speech (db w) speechId userId s ->
  version_of (db w) versionId speechId v ->
  (forall v', version_of (db w) versionId speechId v' -> SpeechVersions.readable v' = true) ->
  exists v0, version_of (db w) versionId speechId v0 /\
             getOwnedSpeechVersion versionId speechId userId env w
             = (inr v0, issue (SELECT TSpeechVersions) (issue (SELECT TSpeeches) w)).
Proof.
  intros Hs Hv Hread.
  destruct (getOwnedSpeechVersion_cases versionId speechId userId env w)
    as [(Hno & _)|[(_ & Hn & _)|[(_ & _ & v0 & Hv0 & E)|(_ & (v0 & Hv0 & Hu0) & _)]]];
    [now destruct (Hno s) | now destruct (Hn v) | now exists v0 |].
  rewrite (Hread v0 Hv0) in Hu0. discriminate.
Qed.

Lemma JStr_inj a b : JStr a = JStr b -> a = b.
Proof. now intros [= ->]. Qed.

(** X2. An operation that names a speech the caller does not own (absent,
    or stored under another owner) fails with NotFound after the one
    read of the guard, and the database is as before. *)
Theorem unowned_speech_not_found op raw context u env w k speechId :
  caller context = Some u ->
  accepts op raw = true ->
  speech_key op = Some k ->
  prop raw k = JStr speechId ->
  (forall s, ~ owned_speech (db w) speechId (App.id u) s) ->
  call op raw context env w = (inl SpeechNotFound, issue (SELECT TSpeeches) w).
Proof.
  intros Hu Ha Hk Hp Hn.
  destruct op; simpl in Hk; try discriminate; injection Hk as <-;
    unfold_actions; unfold accepts in Ha;
    match goal with |- context [defineAction ?input _ raw] =>
      destruct (input raw) as [inp|] eqn:E; [|discriminate] end;
    (erewrite bind_inl; [reflexivity|]);
    (erewrite defineAction_parsed by exact E);
    unfold_handlers;
    (erewrite bind_inr by (apply requireUser_signed_in; exact Hu)).
  - apply updateSpeech_input_id in E. rewrite E in Hp. apply JStr_inj in Hp.
    erewrite bind_inl; [reflexivity|]. apply getOwnedSpeech_unowned. now rewrite Hp.
  - apply createSpeechVersion_input_fields in E. destruct E as (E & _).
    rewrite E in Hp. apply JStr_inj in Hp.
    erewrite bind_inl; [reflexivity|]. apply getOwnedSpeech_unowned. now rewrite Hp.
  - apply updateSpeechVersion_input_ids in E. destruct E as (_ & E).
    rewrite E in Hp. apply JStr_inj in Hp.
    erewrite bind_inl; [reflexivity|]. apply getOwnedSpeechVersion_unowned. now rewrite Hp.
  - apply deleteSpeechVersion_input_ids in E. destruct E as (_ & E).
    rewrite E in Hp. apply JStr_inj in Hp.
    erewrite bind_inl; [reflexivity|]. apply getOwnedSpeechVersion_unowned. now rewrite Hp.
  - apply listSpeechVersions_input_speechId in E.
    rewrite E in Hp. apply JStr_inj in Hp.
    erewrite bind_inl; [reflexivity|]. apply getOwnedSpeech_unowned. now rewrite Hp.
Qed.

Lemma unowned_speech_not_found_witness :
  call UpdateSpeech retitle_request (as_user bob) (at_time 3000) sample
  = (inl SpeechNotFound, issue (SELECT TSpeeches) sample).
Proof.
  apply (unowned_speech_not_found UpdateSpeech retitle_request (as_user bob) bob
                                  (at_time 3000) sample "id" "s1").
  - reflexivity.
  - reflexivity.
  - reflexivity.
  - reflexivity.
  - intros s (Hin & Hid & Hu). simpl in Hin.
    destruct Hin as [<-|[<-|[]]]; discriminate.
Defined.

(** X4. [updateSpeechVersion] and [deleteSpeechVersion] on an owned
    speech fail with NotFound when no version has the given id under
    that speech, also when a version with that id is stored under
    another speech; the guard's two reads are the only statements and
    the database is as before. *)
Theorem version_outside_speech_not_found op raw context u env w speechId versionId s :
  caller context = Some u ->
  accepts op raw = true ->
  version_key op = Some "id" ->
  prop raw "speechId" = JStr speechId ->
  prop raw "id" = JStr versionId ->
  owned_speech (db w) speechId (App.id u) s ->
  (forall v, ~ version_of (db w) versionId speechId v) ->
  call op raw context env w
  = (inl VersionNotFound, issue (SELECT TSpeechVersions) (issue (SELECT TSpeeches) w)).
Proof.
  intros Hu Ha Hk Hps Hpv Hs Hn.
  destruct op; simpl in Hk; try discriminate; clear Hk;
    unfold_actions; unfold accepts in Ha;
    match goal with |- context [defineAction ?input _ raw] =>
      destruct (input raw) as [inp|] eqn:E; [|discriminate] end;
    (erewrite bind_inl; [reflexivity|]);
    (erewrite defineAction_parsed by exact E);
    unfold_handlers;
    (erewrite bind_inr by (apply requireUser_signed_in; exact Hu)).
  - apply updateSpeechVersion_input_ids in E. destruct E as (Ev & Es).
    rewrite Ev in Hpv. rewrite Es in Hps. apply JStr_inj in Hpv, Hps.
    erewrite bind_inl; [reflexivity|]. rewrite Hpv, Hps.
    now apply getOwnedSpeechVersion_missing with (s := s).
  - apply deleteSpeechVersion_input_ids in E. destruct E as (Ev & Es).
    rewrite Ev in Hpv. rewrite Es in Hps. apply JStr_inj in Hpv, Hps.
    erewrite bind_inl; [reflexivity|]. rewrite Hpv, Hps.
    now apply getOwnedSpeechVersion_missing with (s := s).
Qed.

Lemma version_outside_speech_not_found_witness :
  call DeleteSpeechVersion (JObj [("id", JStr "v1"); ("speechId", JStr "s2")])
       (as_user bob) (at_time 3000) sample
  = (inl VersionNotFound, issue (SELECT TSpeechVersions) (issue (SELECT TSpeeches) sample)).
Proof.
  apply (version_outside_speech_not_found
           DeleteSpeechVersion (JObj [("id", JStr "v1"); ("speechId", JStr "s2")])
           (as_user bob) bob (at_time 3000) sample "s2" "v1" keynote).
  - reflexivity.
  - reflexivity.
  - reflexivity.
  - reflexivity.
  - reflexivity.
  - split; [right; left; reflexivity | split; reflexivity].
  - intros v (Hin & Hid & Hsp). simpl in Hin.
    destruct Hin as [<-|[<-|[]]]; discriminate.
Defined.

(* ===================================================================== *)
(** ** Creating a version *)

Lemma createSpeechVersion_handler_run inp context u env w s :
  caller context = Some u ->
  owned_speech (db w) (server.createSpeechVersion.speechId inp) (App.id u) s ->
  server.createSpeechVersion.handler inp context env w =
  let v := SpeechVersions.written (new_version inp env) in
  let w1 := issue (INSERT TSpeechVersions) (issue (SELECT TSpeeches) w) in
  let w2 := {| db := {| Speeches_rows := Speeches_rows (db w);
                        SpeechVersions_rows := SpeechVersions_rows (db w) ++ [v] |};
               issued := (issued w ++ [SELECT TSpeeches]) ++ [INSERT TSpeechVersions] |} in
  if negb (SpeechVersions.bindable (new_version inp env)) then (inl RangeError, w1)
  else if existsb (fun r' => String.eqb (SpeechVersions.id r') (uuid_string (entropy env)))
                  (SpeechVersions_rows (db w))
       then (inl (ConstraintError TSpeechVersions), w1)
       else if SpeechVersions.readable v then (inr (Some v), w2) else (inl RangeError, w2).
Proof.
  intros Hu Hs. unfold server.createSpeechVersion.handler.
  erewrite bind_inr by (apply requireUser_signed_in; exact Hu).
  destruct (getOwnedSpeech_cases (server.createSpeechVersion.speechId inp) (App.id u) env w)
    as [(s0 & _ & E)|(Hn & _)]; [|now destruct (Hn s)].
  erewrite bind_inr by exact E.
  unfold bind, new_Date, randomUUID, Db.insert_SpeechVersions. cbv zeta.
  fold (new_version inp env). simpl db.
  change (SpeechVersions.id (new_version inp env)) with (uuid_string (entropy env)).
  destruct (negb _); [reflexivity|].
  destruct (existsb _ _); [reflexivity|].
  destruct (SpeechVersions.readable _); reflexivity.
Qed.



Example createSpeechVersion_unreadable_duration :
  fst (server.createSpeechVersion.action long_request (as_user alice) (at_time 3000) sample)
  = inl RangeError
  /\ map SpeechVersions.id (SpeechVersions_rows (db long_version_world))
     = ["v1"; "v2"; "00000000-0000-4000-8000-000000000000"].
Proof. split; reflexivity. Qed.

(* ===================================================================== *)
(** ** Updating a version *)

Section ByKey.
Context {R : Type} (key : R -> string).

Lemma same_key_same_row (table : list R) (x y : R) :
  NoDup (map key table) -> In x table -> In y table -> key x = key y -> x = y.
Proof.
  induction table as [|r table IH]; simpl; [tauto|].
  intros ND Hx Hy E. apply NoDup_cons_iff in ND. destruct ND as [Hfresh ND].
  destruct Hx as [<-|Hx], Hy as [<-|Hy]; trivial.
  - destruct Hfresh. rewrite E. now apply in_map.
  - destruct Hfresh. rewrite <- E. now apply in_map.
  - now apply IH.
Qed.

Lemma where_key_is (table : list R) (x : R) :
  NoDup (map key table) -> In x table ->
  filter (fun r => String.eqb (key r) (key x)) table = [x].
Proof.
  induction table as [|r table IH]; simpl; [tauto|].
  intros ND Hx. apply NoDup_cons_iff in ND. destruct ND as [Hfresh ND].
  destruct (String.eqb_spec (key r) (key x)) as [E|NE].
  - assert (r = x) as ->.
    { destruct Hx as [H|H]; trivial. destruct Hfresh. rewrite E. now apply in_map. }
    f_equal. apply filter_nil_iff. intros y Hy.
    apply String.eqb_neq. intros E'. apply Hfresh. rewrite <- E'. now apply in_map.
  - destruct Hx as [H|H]; [congruence|]. now apply IH.
Qed.
End ByKey.

Lemma updateSpeechVersion_handler_run inp context u env w s old :
  caller context = Some u ->
  owned_speech (db w) (server.updateSpeechVersion.speechId inp) (App.id u) s ->
  version_of (db w) (server.updateSpeechVersion.id inp)
             (server.updateSpeechVersion.speechId inp) old ->
  (forall v', version_of (db w) (server.updateSpeechVersion.id inp)
                         (server.updateSpeechVersion.speechId inp) v' ->
              SpeechVersions.readable v' = true) ->
  server.updateSpeechVersion.handler inp context env w =
  let s' := SpeechVersions.written_set (version_changes inp) in
  let w0 := issue (SELECT TSpeechVersions) (issue (SELECT TSpeeches) w) in
  let returned :=
    map (SpeechVersions.apply s')
        (filter (fun r => String.eqb (SpeechVersions.id r) (server.updateSpeechVersion.id inp))
                (SpeechVersions_rows (db w))) in
  let w2 :=
    {| db := {| Speeches_rows := Speeches_rows (db w);
                SpeechVersions_rows :=
                  map (fun r => if String.eqb (SpeechVersions.id r)
                                              (server.updateSpeechVersion.id inp)
                                then SpeechVersions.apply s' r else r)
                      (SpeechVersions_rows (db w)) |};
       issued := ((issued w ++ [SELECT TSpeeches]) ++ [SELECT TSpeechVersions])
                   ++ [UPDATE TSpeechVersions] |} in
  if negb (SpeechVersions.bindable_set (version_changes inp))
  then (inl RangeError, issue (UPDATE TSpeechVersions) w0)
  else if forallb SpeechVersions.readable returned
       then (inr (hd_error returned), w2)
       else (inl RangeError, w2).
Proof.
  intros Hu Hs Hv Hread. unfold server.updateSpeechVersion.handler.
  erewrite bind_inr by (apply requireUser_signed_in; exact Hu).
  destruct (getOwnedSpeechVersion_found
              (server.updateSpeechVersion.id inp) (server.updateSpeechVersion.speechId inp)
              (App.id u) env w s old Hs Hv Hread) as (v0 & _ & E).
  erewrite bind_inr by exact E.
  unfold bind, Db.update_SpeechVersions. cbv zeta. fold (version_changes inp). simpl db.
  destruct (negb _); [reflexivity|].
  destruct (forallb _ _); reflexivity.
Qed.

(** The stored versions after an update of the owned version [old]. *)
Lemma updateSpeechVersion_effect inp context u env w s old :
  NoDup (map SpeechVersions.id (SpeechVersions_rows (db w))) ->
  caller context = Some u ->
  owned_speech (db w) (server.updateSpeechVersion.speechId inp) (App.id u) s ->
  version_of (db w) (server.updateSpeechVersion.id inp)
             (server.updateSpeechVersion.speechId inp) old ->
  SpeechVersions.readable old = true ->
  SpeechVersions.bindable_set (version_changes inp) = true ->
  let new := SpeechVersions.apply (SpeechVersions.written_set (version_changes inp)) old in
  exists w',
    server.updateSpeechVersion.handler inp context env w
    = (if SpeechVersions.readable new then inr (Some new) else inl RangeError, w') /\
    In new (SpeechVersions_rows (db w')) /\
    (forall r, In r (SpeechVersions_rows (db w')) ->
               SpeechVersions.id r = server.updateSpeechVersion.id inp -> r = new) /\
    (forall r, SpeechVersions.id r <> server.updateSpeechVersion.id inp ->
               (In r (SpeechVersions_rows (db w')) <-> In r (SpeechVersions_rows (db w)))) /\
    Speeches_rows (db w') = Speeches_rows (db w).
Proof.
  intros ND Hu Hs Hv Hold Hbind new.
  assert (Hread : forall v', version_of (db w) (server.updateSpeechVersion.id inp)
                                        (server.updateSpeechVersion.speechId inp) v' ->
                             SpeechVersions.readable v' = true).
  { intros v' (Hin' & Hid' & _). destruct Hv as (Hin & Hid & _).
    assert (v' = old)
      by (apply (same_key_same_row SpeechVersions.id (SpeechVersions_rows (db w)));
          auto; congruence).
    now subst v'. }
  rewrite (updateSpeechVersion_handler_run inp context u env w s old Hu Hs Hv Hread).
  cbv zeta. rewrite Hbind. simpl negb. cbv iota.
  destruct Hv as (Hin & Hid & Hsp).
  assert (F : filter (fun r => String.eqb (SpeechVersions.id r)
                                          (server.updateSpeechVersion.id inp))
                     (SpeechVersions_rows (db w)) = [old]).
  { rewrite <- Hid. now apply (where_key_is SpeechVersions.id). }
  rewrite F. simpl map. simpl forallb. fold new. rewrite andb_true_r.
  assert (Pold : String.eqb (SpeechVersions.id old) (server.updateSpeechVersion.id inp) = true)
    by now apply String.eqb_eq.
  assert (K : forall w',
             SpeechVersions_rows (db w')
             = map (fun r => if String.eqb (SpeechVersions.id r)
                                           (server.updateSpeechVersion.id inp)
                             then SpeechVersions.apply
                                    (SpeechVersions.written_set (version_changes inp)) r
                             else r) (SpeechVersions_rows (db w)) ->
             Speeches_rows (db w') = Speeches_rows (db w) ->
             In new (SpeechVersions_rows (db w')) /\
             (forall r, In r (SpeechVersions_rows (db w')) ->
                        SpeechVersions.id r = server.updateSpeechVersion.id inp -> r = new) /\
             (forall r, SpeechVersions.id r <> server.updateSpeechVersion.id inp ->
                        (In r (SpeechVersions_rows (db w'))
                         <-> In r (SpeechVersions_rows (db w)))) /\
             Speeches_rows (db w') = Speeches_rows (db w)).
  { intros w' Erows Esp. rewrite Erows. split.
    { apply in_map_iff. exists old. now rewrite Pold. }
    split.
    { intros r Hr Er. apply in_map_iff in Hr. destruct Hr as (r0 & <- & Hr0).
      destruct (String.eqb_spec (SpeechVersions.id r0) (server.updateSpeechVersion.id inp))
        as [E0|N0]; [|contradiction].
      unfold new. f_equal.
      apply (same_key_same_row SpeechVersions.id (SpeechVersions_rows (db w))); auto.
      congruence. }
    split; [|exact Esp].
    intros r Hr. rewrite in_map_iff. split.
    - intros (r0 & E0 & Hr0).
      destruct (String.eqb_spec (SpeechVersions.id r0) (server.updateSpeechVersion.id inp))
        as [E1|N1].
      + exfalso. apply Hr. rewrite <- E0. exact E1.
      + now subst r0.
    - intros Hin'. exists r. split; [|exact Hin'].
      destruct (String.eqb_spec (SpeechVersions.id r) (server.updateSpeechVersion.id inp));
        [contradiction|reflexivity]. }
  destruct (SpeechVersions.readable new);
    (eexists; split; [reflexivity|]; apply K; reflexivity).
Qed.

(** X3. [updateSpeechVersion] by the owner of the speech, on a version
    stored under that speech that the driver can read back, with a
    valid input whose duration, if any, is finite.  The row stored
    under the id afterwards holds, in each field present in the input,
    the supplied value as the store keeps it, and in each omitted field
    its old value; [id], [speechId] and [createdAt] are kept; no other
    version changes and no speech changes (the parent's [updatedAt] is
    not refreshed).  The call returns that row when the driver can read
    it back, and fails with RangeError, the update done, when it
    cannot. *)
Theorem updateSpeechVersion_partial_update raw inp context u env w s old :
  NoDup (map SpeechVersions.id (SpeechVersions_rows (db w))) ->
  caller context = Some u ->
  server.updateSpeechVersion.input raw = Some inp ->
  owned_speech (db w) (server.updateSpeechVersion.speechId inp) (App.id u) s ->
  version_of (db w) (server.updateSpeechVersion.id inp)
             (server.updateSpeechVersion.speechId inp) old ->
  SpeechVersions.readable old = true ->
  SpeechVersions.bindable_set (version_changes inp) = true ->
  exists new w',
    server.updateSpeechVersion.action raw context env w
    = (if SpeechVersions.readable new then inr (Some new) else inl RangeError, w') /\
    In new (SpeechVersions_rows (db w')) /\
    (forall r, In r (SpeechVersions_rows (db w')) ->
               SpeechVersions.id r = server.updateSpeechVersion.id inp -> r = new) /\
    SpeechVersions.versionLabel new
    = match server.updateSpeechVersion.versionLabel inp with
      | Some t => Some (Driver.text t) | None => SpeechVersions.versionLabel old end /\
    SpeechVersions.tone new
    = match server.updateSpeechVersion.tone inp with
      | Some t => Some (Driver.text t) | None => SpeechVersions.tone old end /\
    SpeechVersions.targetDurationMinutes new
    = match server.updateSpeechVersion.targetDurationMinutes inp with
      | Some n => Some (Driver.number n)
      | None => SpeechVersions.targetDurationMinutes old end /\
    SpeechVersions.scriptText new
    = match server.updateSpeechVersion.scriptText inp with
      | Some t => Driver.text t | None => SpeechVersions.scriptText old end /\
    SpeechVersions.isPreferred new
    = match server.updateSpeechVersion.isPreferred inp with
      | Some b => b | None => SpeechVersions.isPreferred old end /\
    SpeechVersions.id new = SpeechVersions.id old /\
    SpeechVersions.speechId new = SpeechVersions.speechId old /\
    SpeechVersions.createdAt new = SpeechVersions.createdAt old /\
    (forall r, SpeechVersions.id r <> server.updateSpeechVersion.id inp ->
               (In r (SpeechVersions_rows (db w')) <-> In r (SpeechVersions_rows (db w)))) /\
    Speeches_rows (db w') = Speeches_rows (db w).
Proof.
  intros ND Hu Hi Hs Hv Hold Hbind. unfold server.updateSpeechVersion.action.
  erewrite defineAction_parsed by exact Hi.
  destruct (updateSpeechVersion_effect inp context u env w s old ND Hu Hs Hv Hold Hbind)
    as (w' & Hrun & Hin & Hone & Hrest & Hsp).
  exists (SpeechVersions.apply (SpeechVersions.written_set (version_changes inp)) old), w'.
  split; [exact Hrun|]. split; [exact Hin|]. split; [exact Hone|].
  unfold version_changes, SpeechVersions.written_set, SpeechVersions.apply,
    SpeechVersions.assign. simpl.
  split; [now destruct (server.updateSpeechVersion.versionLabel inp)|].
  split; [now destruct (server.updateSpeechVersion.tone inp)|].
  split; [now destruct (server.updateSpeechVersion.targetDurationMinutes inp)|].
  split; [now destruct (server.updateSpeechVersion.scriptText inp)|].
  split; [reflexivity|].
  split; [reflexivity|]. split; [reflexivity|]. split; [reflexivity|].
  split; [exact Hrest | exact Hsp].
Qed.

Lemma updateSpeechVersion_partial_update_witness :
  exists new w',
    server.updateSpeechVersion.action
      (JObj [("id", JStr "v2"); ("speechId", JStr "s1"); ("isPreferred", JBool true)])
      (as_user alice) (at_time 3000) sample
    = (inr (Some new), w') /\
    SpeechVersions.isPreferred new = true /\
    SpeechVersions.scriptText new = "Hi." /\
    Speeches_rows (db w') = [toast; keynote].
Proof.
  destruct (updateSpeechVersion_partial_update
              (JObj [("id", JStr "v2"); ("speechId", JStr "s1"); ("isPreferred", JBool true)])
              {| server.updateSpeechVersion.id := "v2";
                 server.updateSpeechVersion.speechId := "s1";
                 server.updateSpeechVersion.versionLabel := None;
                 server.updateSpeechVersion.tone := None;
                 server.updateSpeechVersion.targetDurationMinutes := None;
                 server.updateSpeechVersion.scriptText := None;
                 server.updateSpeechVersion.isPreferred := Some true |}
              (as_user alice) alice (at_time 3000) sample toast toast_short)
    as (new & w' & Hrun & _ & _ & _ & _ & Hdur & Hscript & Hpref & _ & _ & _ & _ & Hsp).
  - exact (proj2 sample_primary_keys).
  - reflexivity.
  - reflexivity.
  - split; [left; reflexivity | split; reflexivity].
  - split; [right; left; reflexivity | split; reflexivity].
  - reflexivity.
  - reflexivity.
  - exists new, w'.
    assert (R : SpeechVersions.readable new = true)
      by (unfold SpeechVersions.readable; rewrite Hdur; reflexivity).
    rewrite R in Hrun. repeat split; assumption.
Defined.

Example updateSpeechVersion_unreadable_duration :
  let after :=
    server.updateSpeechVersion.action
      (JObj [("id", JStr "v2"); ("speechId", JStr "s1");
             ("targetDurationMinutes", JNum 9007199254740992%float)])
      (as_user alice) (at_time 3000) sample in
  fst after = inl RangeError
  /\ map SpeechVersions.targetDurationMinutes (SpeechVersions_rows (db (snd after)))
     = [None; Some 9007199254740992%float].
Proof. split; reflexivity. Qed.

Example negative_zero_is_stored_as_zero :
  option_map (fun v => option_map Prim2SF (SpeechVersions.targetDurationMinutes v))
             (match fst (server.createSpeechVersion.action
                           (JObj [("speechId", JStr "s1"); ("scriptText", JStr "Hello...");
                                  ("targetDurationMinutes", JNum (-0)%float)])
                           (as_user alice) (at_time 3000) sample)
              with inr v => v | inl _ => None end)
  = Some (Some (S754_zero false)).
Proof. reflexivity. Qed.

(* ===================================================================== *)
(** ** Every call is at most one transition of its caller *)

Lemma effect_ok_returning {A B} (f : A -> B) (m : Action A) context env w :
  effect_ok context w (m env w) -> effect_ok context w (returning f m env w).
Proof.
  unfold effect_ok, returning, bind, ret.
  destruct (m env w) as [[e|a] w1]; simpl.
  - intros [H|(u & Hc & Hr & Ht)]; [now left|]. right. exists u.
    split; [exact Hc|]. split; [|exact Ht].
    intros e0 [= <-]. now apply Hr.
  - intros [H|(u & Hc & _ & Ht)]; [now left|].
    right. exists u. split; [exact Hc|]. split; [discriminate | exact Ht].
Qed.

Ltac anonymous_case Hc :=
  erewrite bind_inl by (apply requireUser_anonymous; exact Hc); left; reflexivity.

Ltac wrote u Hc :=
  right; exists u; split; [exact Hc|]; split;
  [first [discriminate | now intros e [= <-]]|]; simpl.

Lemma createSpeech_effect inp context env w :
  effect_ok context w (server.createSpeech.handler inp context env w).
Proof.
  destruct (caller context) as [u|] eqn:Hc.
  - rewrite (createSpeech_handler_run inp context u env w Hc).
    destruct (existsb _ _) eqn:T; [left; reflexivity|].
    wrote u Hc.
    apply (@t_createSpeech (App.id u) (db w) (Speeches.written (new_speech inp u env)));
      [reflexivity|].
    intros Hin. apply id_taken_iff in Hin. simpl in Hin. congruence.
  - unfold server.createSpeech.handler. anonymous_case Hc.
Qed.

Lemma updateSpeech_effect inp context env w :
  effect_ok context w (server.updateSpeech.handler inp context env w).
Proof.
  destruct (caller context) as [u|] eqn:Hc.
  - destruct (getOwnedSpeech_cases (server.updateSpeech.id inp) (App.id u) env w)
      as [(s & Hs & E)|(_ & E)].
    + rewrite (updateSpeech_handler_run inp context u env w s Hc Hs). cbv zeta.
      wrote u Hc.
      destruct Hs as (Hin & Hid & Hu). rewrite <- Hid.
      apply (@t_updateSpeech (App.id u) (db w) s
                             (Speeches.written_set (speech_changes inp env))).
      split; [exact Hin|]. split; [reflexivity | exact Hu].
    + unfold server.updateSpeech.handler.
      erewrite bind_inr by (apply requireUser_signed_in; exact Hc).
      erewrite bind_inl by exact E. left. reflexivity.
  - unfold server.updateSpeech.handler. anonymous_case Hc.
Qed.

Lemma listSpeeches_effect i context env w :
  db (snd (server.listSpeeches.handler i context env w)) = db w.
Proof.
  destruct (caller context) as [u|] eqn:Hc.
  - now rewrite (listSpeeches_handler_run i context u env w Hc).
  - unfold server.listSpeeches.handler.
    now erewrite bind_inl by (apply requireUser_anonymous; exact Hc).
Qed.

Lemma createSpeechVersion_effect inp context env w :
  effect_ok context w (server.createSpeechVersion.handler inp context env w).
Proof.
  destruct (caller context) as [u|] eqn:Hc.
  - destruct (getOwnedSpeech_cases (server.createSpeechVersion.speechId inp) (App.id u) env w)
      as [(s & Hs & E)|(_ & E)].
    + rewrite (createSpeechVersion_handler_run inp context u env w s Hc Hs). cbv zeta.
      destruct (negb _); [left; reflexivity|].
      destruct (existsb _ _) eqn:T; [left; reflexivity|].
      assert (K : transition (App.id u) (db w)
                    {| Speeches_rows := Speeches_rows (db w);
                       SpeechVersions_rows :=
                         SpeechVersions_rows (db w)
                         ++ [SpeechVersions.written (new_version inp env)] |}).
      { apply (@t_createSpeechVersion (App.id u) (db w) s
                                      (SpeechVersions.written (new_version inp env)));
          [exact Hs|].
        intros Hin. apply version_id_taken_iff in Hin. simpl in Hin. congruence. }
      destruct (SpeechVersions.readable _); wrote u Hc; exact K.
    + unfold server.createSpeechVersion.handler.
      erewrite bind_inr by (apply requireUser_signed_in; exact Hc).
      erewrite bind_inl by exact E. left. reflexivity.
  - unfold server.createSpeechVersion.handler. anonymous_case Hc.
Qed.

Lemma updateSpeechVersion_effect_ok inp context env w :
  effect_ok context w (server.updateSpeechVersion.handler inp context env w).
Proof.
  destruct (caller context) as [u|] eqn:Hc.
  - destruct (getOwnedSpeechVersion_cases
                (server.updateSpeechVersion.id inp) (server.updateSpeechVersion.speechId inp)
                (App.id u) env w)
      as [(_ & E)|[(_ & _ & E)|[((s & Hs) & Hr & v & Hv & _)|(_ & _ & E)]]].
    + unfold server.updateSpeechVersion.handler.
      erewrite bind_inr by (apply requireUser_signed_in; exact Hc).
      erewrite bind_inl by exact E. left. reflexivity.
    + unfold server.updateSpeechVersion.handler.
      erewrite bind_inr by (apply requireUser_signed_in; exact Hc).
      erewrite bind_inl by exact E. left. reflexivity.
    + rewrite (updateSpeechVersion_handler_run inp context u env w s v Hc Hs Hv Hr).
      cbv zeta. destruct (negb _); [left; reflexivity|].
      destruct Hv as (Hin & Hid & Hsp).
      assert (K : transition (App.id u) (db w)
                    {| Speeches_rows := Speeches_rows (db w);
                       SpeechVersions_rows :=
                         map (fun r => if String.eqb (SpeechVersions.id r)
                                                     (server.updateSpeechVersion.id inp)
                                       then SpeechVersions.apply
                                              (SpeechVersions.written_set (version_changes inp))
                                              r
                                       else r) (SpeechVersions_rows (db w)) |}).
      { rewrite <- Hid.
        apply (@t_updateSpeechVersion (App.id u) (db w) s v
                                      (SpeechVersions.written_set (version_changes inp)));
          [now rewrite Hsp | exact Hin]. }
      destruct (forallb _ _); wrote u Hc; exact K.
    + unfold server.updateSpeechVersion.handler.
      erewrite bind_inr by (apply requireUser_signed_in; exact Hc).
      erewrite bind_inl by exact E. left. reflexivity.
  - unfold server.updateSpeechVersion.handler. anonymous_case Hc.
Qed.

Lemma deleteSpeechVersion_effect inp context env w :
  effect_ok context w (server.deleteSpeechVersion.handler inp context env w).
Proof.
  destruct (caller context) as [u|] eqn:Hc.
  - destruct (getOwnedSpeechVersion_cases
                (server.deleteSpeechVersion.id inp) (server.deleteSpeechVersion.speechId inp)
                (App.id u) env w)
      as [(_ & E)|[(_ & _ & E)|[((s & Hs) & Hr & v & Hv & _)|(_ & _ & E)]]].
    + unfold server.deleteSpeechVersion.handler.
      erewrite bind_inr by (apply requireUser_signed_in; exact Hc).
      erewrite bind_inl by exact E. left. reflexivity.
    + unfold server.deleteSpeechVersion.handler.
      erewrite bind_inr by (apply requireUser_signed_in; exact Hc).
      erewrite bind_inl by exact E. left. reflexivity.
    + rewrite (deleteSpeechVersion_handler_run inp context u env w s v Hc Hs Hv Hr).
      wrote u Hc. unfold without_version. simpl.
      destruct Hv as (Hin & Hid & Hsp). rewrite <- Hid.
      apply (@t_deleteSpeechVersion (App.id u) (db w) s v); [now rewrite Hsp | exact Hin].
    + unfold server.deleteSpeechVersion.handler.
      erewrite bind_inr by (apply requireUser_signed_in; exact Hc).
      erewrite bind_inl by exact E. left. reflexivity.
  - unfold server.deleteSpeechVersion.handler. anonymous_case Hc.
Qed.

Lemma listSpeechVersions_effect inp context env w :
  db (snd (server.listSpeechVersions.handler inp context env w)) = db w.
Proof.
  destruct (caller context) as [u|] eqn:Hc.
  - destruct (getOwnedSpeech_cases (server.listSpeechVersions.speechId inp) (App.id u) env w)
      as [(s & Hs & E)|(_ & E)].
    + now rewrite (listSpeechVersions_handler_run inp context u env w s Hc Hs).
    + unfold server.listSpeechVersions.handler.
      erewrite bind_inr by (apply requireUser_signed_in; exact Hc).
      now erewrite bind_inl by exact E.
  - unfold server.listSpeechVersions.handler.
    now erewrite bind_inl by (apply requireUser_anonymous; exact Hc).
Qed.

Lemma call_effect op raw context env w :
  effect_ok context w (call op raw context env w).
Proof.
  destruct op; unfold call; apply effect_ok_returning;
    unfold_actions; unfold defineAction;
    match goal with |- context [?input raw] => destruct (input raw) eqn:E end;
    try (left; reflexivity).
  - apply createSpeech_effect.
  - apply updateSpeech_effect.
  - left. apply listSpeeches_effect.
  - apply createSpeechVersion_effect.
  - apply updateSpeechVersion_effect_ok.
  - apply deleteSpeechVersion_effect.
  - left. apply listSpeechVersions_effect.
Qed.

(* ===================================================================== *)
(** ** Invariants of the store *)

Lemma serve_all_invariant (I : Database -> Prop) :
  (forall op raw context env w, I (db w) -> I (db (snd (call op raw context env w)))) ->
  forall requests w, I (db w) -> I (db (serve_all requests w)).
Proof.
  intros Hstep requests. unfold serve_all.
  induction requests as [|r requests IH]; simpl; intros w Hw; [exact Hw|].
  apply IH. unfold serve. now apply Hstep.
Qed.

Lemma call_invariant (I : Database -> Prop) :
  (forall u d d', transition u d d' -> I d -> I d') ->
  forall op raw context env w, I (db w) -> I (db (snd (call op raw context env w))).
Proof.
  intros Htrans op raw context env w Hw.
  destruct (call_effect op raw context env w) as [E|(u & _ & _ & T)].
  - now rewrite E.
  - now apply (Htrans (App.id u) (db w)).
Qed.

Lemma transition_references u d d' :
  transition u d d' -> references_hold d -> references_hold d'.
Proof.
  unfold references_hold.
  intros T H. destruct T as [d s _ _|d old set _|d parent v Hp _|d parent old set _ _
                            |d parent old _ _]; simpl; intros x Hx.
  - destruct (H x Hx) as (s0 & Hs0 & E). exists s0. split; [|exact E].
    apply in_or_app. now left.
  - destruct (H x Hx) as (s0 & Hs0 & E).
    exists (if String.eqb (Speeches.id s0) (Speeches.id old)
            then Speeches.apply set s0 else s0).
    split.
    + apply in_map_iff. now exists s0.
    + now destruct (String.eqb _ _).
  - apply in_app_or in Hx. destruct Hx as [Hx|[<-|[]]]; [now apply H|].
    exists parent. destruct Hp as (Hin & Hid & _). now split.
  - apply in_map_iff in Hx. destruct Hx as (x0 & E & Hx0).
    destruct (H x0 Hx0) as (s0 & Hs0 & E0). exists s0. split; [exact Hs0|].
    rewrite E0, <- E. now destruct (String.eqb _ _).
  - apply filter_In in Hx. now apply H.
Qed.


(** X5. Serving any sequence of requests keeps the ids of each table
    unique: an insert under an id already stored is refused, and
    updates and deletes change no id. *)
Theorem primary_keys_invariant requests w :
  primary_keys (db w) -> primary_keys (db (serve_all requests w)).
Proof.
  apply (serve_all_invariant primary_keys).
  intros op raw context env w0. apply call_preserves_primary_keys.
Qed.

Lemma primary_keys_invariant_witness :
  primary_keys (db (serve_all session empty_world)).
Proof.
  apply (primary_keys_invariant session empty_world).
  split; simpl; constructor.
Defined.

(** X6. Serving any sequence of requests leaves no version without its
    speech: a version is only inserted under a speech the guard has just
    found, its [speechId] is never reassigned, and no speech is ever
    removed or given another id. *)
Theorem references_invariant requests w :
  references_hold (db w) -> references_hold (db (serve_all requests w)).
Proof.
  apply (serve_all_invariant references_hold).
  apply (call_invariant references_hold). exact transition_references.
Qed.

Lemma references_invariant_witness :
  references_hold (db (serve_all session empty_world)).
Proof.
  apply (references_invariant session empty_world).
  intros v [].
Defined.


Example session_outcome :
  map Speeches.title (Speeches_rows (db (serve_all session empty_world))) = ["Wedding Toast"]
  /\ SpeechVersions_rows (db (serve_all session empty_world)) = []
  /\ issued (serve_all session empty_world)
     = [INSERT TSpeeches;
        SELECT TSpeeches; INSERT TSpeechVersions;
        SELECT TSpeeches;
        SELECT TSpeeches; SELECT TSpeechVersions; DELETE TSpeechVersions].
Proof. repeat split. Qed.

(* ===================================================================== *)
(** ** What a call leaves alone *)

(** X8. A call that fails with an error of the handlers, of validation
    or of the primary key leaves the database as it found it.  (The
    driver's RangeError is the exception: it can be raised on reading
    back a row the call has already written.) *)
Theorem failed_call_leaves_database op raw context env w e w' :
  call op raw context env w = (inl e, w') ->
  e <> RangeError ->
  db w' = db w.
Proof.
  intros H Hne.
  destruct (call_effect op raw context env w) as [E|(u & _ & R & _)];
    rewrite H in *; simpl in *; [exact E|].
  now destruct (Hne (R e eq_refl)).
Qed.

Lemma failed_call_leaves_database_witness :
  db (issue (INSERT TSpeeches) after_create) = db after_create.
Proof.
  apply (failed_call_leaves_database
           CreateSpeech wedding_toast_request (as_user bob) (at_time 2100) after_create
           (ConstraintError TSpeeches) (issue (INSERT TSpeeches) after_create)).
  - reflexivity.
  - discriminate.
Defined.

(** X9. The two listing operations never change the database, whoever
    calls them with whatever input. *)
Theorem listings_read_only raw context env w :
  db (snd (server.listSpeeches.action raw context env w)) = db w /\
  db (snd (server.listSpeechVersions.action raw context env w)) = db w.
Proof.
  split.
  - unfold server.listSpeeches.action, defineAction.
    destruct (server.listSpeeches.input raw); [apply listSpeeches_effect | reflexivity].
  - unfold server.listSpeechVersions.action, defineAction.
    destruct (server.listSpeechVersions.input raw);
      [apply listSpeechVersions_effect | reflexivity].
Qed.

Lemma transition_foreign_speeches u d d' r :
  transition u d d' ->
  NoDup (map Speeches.id (Speeches_rows d)) ->
  Speeches.userId r <> u ->
  (In r (Speeches_rows d') <-> In r (Speeches_rows d)).
Proof.
  intros T ND Hr.
  destruct T as [d s Hu _|d old set Ho|d parent v _ _|d parent old set _ _
                |d parent old _ _]; simpl; try tauto.
  - rewrite in_app_iff. simpl. split; [|tauto].
    intros [H|[H|[]]]; [exact H|]. subst s. contradiction.
  - destruct Ho as (Hin & _ & Hu). rewrite in_map_iff. split.
    + intros (r0 & E & Hr0).
      destruct (String.eqb_spec (Speeches.id r0) (Speeches.id old)) as [E0|N0];
        [|now subst r0].
      assert (r0 = old) by now apply (same_key_same_row Speeches.id (Speeches_rows d)).
      subst r0 r. simpl in Hr. contradiction.
    + intros Hin'. exists r. split; [|exact Hin'].
      destruct (String.eqb_spec (Speeches.id r) (Speeches.id old)) as [E0|N0];
        [|reflexivity].
      assert (r = old) by now apply (same_key_same_row Speeches.id (Speeches_rows d)).
      subst r. contradiction.
Qed.

Lemma transition_foreign_versions u d d' v :
  transition u d d' ->
  NoDup (map SpeechVersions.id (SpeechVersions_rows d)) ->
  (forall s, ~ owned_speech d (SpeechVersions.speechId v) u s) ->
  (In v (SpeechVersions_rows d') <-> In v (SpeechVersions_rows d)).
Proof.
  intros T ND Hv.
  destruct T as [d s _ _|d old set _|d parent x Hp _|d parent old set Hp Hin
                |d parent old Hp Hin]; simpl; try tauto.
  - rewrite in_app_iff. simpl. split; [|tauto].
    intros [H|[H|[]]]; [exact H|]. subst x. now destruct (Hv parent).
  - rewrite in_map_iff. split.
    + intros (x0 & E & Hx0).
      destruct (String.eqb_spec (SpeechVersions.id x0) (SpeechVersions.id old)) as [E0|N0];
        [|now subst x0].
      assert (x0 = old)
        by now apply (same_key_same_row SpeechVersions.id (SpeechVersions_rows d)).
      subst x0 v. simpl in Hv. now destruct (Hv parent).
    + intros Hin'. exists v. split; [|exact Hin'].
      destruct (String.eqb_spec (SpeechVersions.id v) (SpeechVersions.id old)) as [E0|N0];
        [|reflexivity].
      assert (v = old)
        by now apply (same_key_same_row SpeechVersions.id (SpeechVersions_rows d)).
      subst v. now destruct (Hv parent).
  - rewrite filter_In, negb_true_iff, String.eqb_neq. split; [tauto|].
    intros Hin'. split; [exact Hin'|]. intros E0.
    assert (v = old)
      by now apply (same_key_same_row SpeechVersions.id (SpeechVersions_rows d)).
    subst v. now destruct (Hv parent).
Qed.

(** X10. No call touches a speech of another owner: a stored speech
    whose [userId] is not the caller's id is stored unchanged after the
    call, and no such row appears.  (The update selects by id alone;
    the unique ids make that the row the guard found.) *)
Theorem other_owners_speeches_untouched op raw context env w r :
  NoDup (map Speeches.id (Speeches_rows (db w))) ->
  (forall u, caller context = Some u -> Speeches.userId r <> App.id u) ->
  (In r (Speeches_rows (db (snd (call op raw context env w))))
   <-> In r (Speeches_rows (db w))).
Proof.
  intros ND Hr.
  destruct (call_effect op raw context env w) as [E|(u & Hc & _ & T)].
  - now rewrite E.
  - apply (transition_foreign_speeches (App.id u)); auto.
Qed.

Lemma other_owners_speeches_untouched_witness :
  In keynote (Speeches_rows (db (snd (call UpdateSpeech retitle_request (as_user alice)
                                           (at_time 3000) sample))))
  <-> In keynote (Speeches_rows (db sample)).
Proof.
  apply (other_owners_speeches_untouched
           UpdateSpeech retitle_request (as_user alice) (at_time 3000) sample keynote).
  - exact (proj1 sample_primary_keys).
  - intros u [= <-]. discriminate.
Defined.

(** X11. No call touches a version of a speech the caller does not own:
    such a version is stored unchanged after the call, and no such row
    appears.  (Update and delete select the version by id alone; the
    unique ids make that the version the guard found under the owned
    speech.) *)
Theorem other_speeches_versions_untouched op raw context env w v :
  NoDup (map SpeechVersions.id (SpeechVersions_rows (db w))) ->
  (forall u s, caller context = Some u ->
               ~ owned_speech (db w) (SpeechVersions.speechId v) (App.id u) s) ->
  (In v (SpeechVersions_rows (db (snd (call op raw context env w))))
   <-> In v (SpeechVersions_rows (db w))).
Proof.
  intros ND Hv.
  destruct (call_effect op raw context env w) as [E|(u & Hc & _ & T)].
  - now rewrite E.
  - apply (transition_foreign_versions (App.id u)); auto.
Qed.

Lemma other_speeches_versions_untouched_witness :
  In toast_formal
     (SpeechVersions_rows
        (db (snd (call DeleteSpeechVersion (JObj [("id", JStr "v1"); ("speechId", JStr "s2")])
                       (as_user bob) (at_time 3000) sample))))
  <-> In toast_formal (SpeechVersions_rows (db sample)).
Proof.
  apply (other_speeches_versions_untouched
           DeleteSpeechVersion (JObj [("id", JStr "v1"); ("speechId", JStr "s2")])
           (as_user bob) (at_time 3000) sample toast_formal).
  - exact (proj2 sample_primary_keys).
  - intros u s [= <-] (Hin & Hid & Hu). simpl in Hin.
    destruct Hin as [<-|[<-|[]]]; discriminate.
Defined.

Lemma transition_speech_persists u d d' r :
  transition u d d' -> In r (Speeches_rows d) ->
  exists r', In r' (Speeches_rows d') /\ Speeches.id r' = Speeches.id r /\
             Speeches.userId r' = Speeches.userId r /\
             Speeches.createdAt r' = Speeches.createdAt r.
Proof.
  intros T Hr.
  destruct T as [d s _ _|d old set _|d parent v _ _|d parent old set _ _
                |d parent old _ _]; simpl; try (exists r; tauto).
  - exists r. rewrite in_app_iff. tauto.
  - exists (if String.eqb (Speeches.id r) (Speeches.id old) then Speeches.apply set r else r).
    split; [apply in_map_iff; now exists r|].
    now destruct (String.eqb _ _).
Qed.

(** X12. No call removes a speech or changes its [id], its owner or its
    [createdAt]: every speech stored before a call is stored after it
    under the same id, with the same [userId] and [createdAt]. *)
Theorem speeches_persist op raw context env w r :
  In r (Speeches_rows (db w)) ->
  exists r', In r' (Speeches_rows (db (snd (call op raw context env w)))) /\
             Speeches.id r' = Speeches.id r /\
             Speeches.userId r' = Speeches.userId r /\
             Speeches.createdAt r' = Speeches.createdAt r.
Proof.
  intros Hr.
  destruct (call_effect op raw context env w) as [E|(u & _ & _ & T)].
  - rewrite E. now exists r.
  - now apply (transition_speech_persists (App.id u) (db w)).
Qed.

Lemma speeches_persist_witness :
  exists r', In r' (Speeches_rows (db (snd (call UpdateSpeech retitle_request (as_user alice)
                                                 (at_time 3000) sample)))) /\
             Speeches.id r' = "s1" /\ Speeches.userId r' = "alice" /\
             Speeches.createdAt r' = 1000%Z.
Proof.
  apply (speeches_persist UpdateSpeech retitle_request (as_user alice) (at_time 3000)
                          sample toast).
  left. reflexivity.
Defined.

(* ===================================================================== *)
(** ** Writing, then reading back *)

Lemma existsb_false_all {A} (f : A -> bool) (l : list A) :
  existsb f l = false -> forall x, In x l -> f x = false.
Proof.
  intros H x Hx. destruct (f x) eqn:Fx; [|reflexivity].
  assert (existsb f l = true) by (apply existsb_exists; now exists x).
  congruence.
Qed.

(** What a successful [createSpeech] tells about its run. *)
Lemma createSpeech_succeeded raw context u env w speech w' :
  caller context = Some u ->
  server.createSpeech.action raw context env w = (inr (Some speech), w') ->
  Speeches.userId speech = App.id u /\
  (forall r, In r (Speeches_rows (db w)) -> Speeches.id r <> Speeches.id speech) /\
  db w' = {| Speeches_rows := Speeches_rows (db w) ++ [speech];
             SpeechVersions_rows := SpeechVersions_rows (db w) |}.
Proof.
  intros Hu. unfold server.createSpeech.action, defineAction.
  destruct (server.createSpeech.input raw) as [inp|]; [|discriminate].
  rewrite (createSpeech_handler_run inp context u env w Hu).
  destruct (existsb _ _) eqn:T; [discriminate|].
  intros [= <- <-]. simpl. split; [reflexivity|]. split; [|reflexivity].
  intros r Hr. apply String.eqb_neq.
  exact (existsb_false_all _ _ T r Hr).
Qed.

(** X13. After a successful [createSpeech] the new row is the last of
    the stored speeches, the guard finds it for its creator under the
    returned id, and for nobody else. *)
Theorem createSpeech_then_lookup raw context u env env' w speech w' :
  caller context = Some u ->
  server.createSpeech.action raw context env w = (inr (Some speech), w') ->
  Speeches_rows (db w') = (Speeches_rows (db w) ++ [speech])%list /\
  getOwnedSpeech (Speeches.id speech) (App.id u) env' w'
  = (inr speech, issue (SELECT TSpeeches) w') /\
  (forall other, other <> App.id u ->
                 getOwnedSpeech (Speeches.id speech) other env' w'
                 = (inl SpeechNotFound, issue (SELECT TSpeeches) w')).
Proof.
  intros Hu Hrun.
  destruct (createSpeech_succeeded raw context u env w speech w' Hu Hrun)
    as (Huid & Hfresh & Hdb).
  split; [now rewrite Hdb|].
  assert (Hold : forall q : Speeches.row -> bool,
             filter (fun r => String.eqb (Speeches.id r) (Speeches.id speech) && q r)
                    (Speeches_rows (db w)) = []).
  { intros q. apply filter_nil_iff. intros r Hr.
    apply andb_false_iff. left. apply String.eqb_neq. now apply Hfresh. }
  split.
  - rewrite getOwnedSpeech_run, Hdb. simpl. rewrite filter_app, Hold. simpl.
    rewrite String.eqb_refl, Huid, String.eqb_refl. reflexivity.
  - intros other Hother.
    rewrite getOwnedSpeech_run, Hdb. simpl. rewrite filter_app, Hold. simpl.
    rewrite String.eqb_refl, Huid. simpl.
    destruct (String.eqb_spec (App.id u) other); [congruence|reflexivity].
Qed.

Lemma createSpeech_then_lookup_witness :
  Speeches_rows (db after_create)
  = ([] ++ [new_speech {| server.createSpeech.title := "Wedding Toast";
                          server.createSpeech.occasion := None;
                          server.createSpeech.audience := None;
                          server.createSpeech.language := None;
                          server.createSpeech.notes := None |} alice (at_time 2000)])%list /\
  getOwnedSpeech "00000000-0000-4000-8000-000000000000" "alice" (at_time 2100) after_create
  = (inr (new_speech {| server.createSpeech.title := "Wedding Toast";
                        server.createSpeech.occasion := None;
                        server.createSpeech.audience := None;
                        server.createSpeech.language := None;
                        server.createSpeech.notes := None |} alice (at_time 2000)),
     issue (SELECT TSpeeches) after_create) /\
  (forall other, other <> "alice" ->
                 getOwnedSpeech "00000000-0000-4000-8000-000000000000" other (at_time 2100)
                                after_create
                 = (inl SpeechNotFound, issue (SELECT TSpeeches) after_create)).
Proof.
  apply (createSpeech_then_lookup wedding_toast_request (as_user alice) alice
                                  (at_time 2000) (at_time 2100) empty_world).
  - reflexivity.
  - reflexivity.
Defined.

(** What a successful [createSpeechVersion] tells about its run. *)
Lemma createSpeechVersion_succeeded raw context u env w version w' :
  caller context = Some u ->
  server.createSpeechVersion.action raw context env w = (inr (Some version), w') ->
  (exists s, owned_speech (db w) (SpeechVersions.speechId version) (App.id u) s) /\
  SpeechVersions.readable version = true /\
  db w' = {| Speeches_rows := Speeches_rows (db w);
             SpeechVersions_rows := SpeechVersions_rows (db w) ++ [version] |}.
Proof.
  intros Hu. unfold server.createSpeechVersion.action, defineAction.
  destruct (server.createSpeechVersion.input raw) as [inp|]; [|discriminate].
  destruct (getOwnedSpeech_cases (server.createSpeechVersion.speechId inp) (App.id u) env w)
    as [(s & Hs & _)|(_ & E)].
  - rewrite (createSpeechVersion_handler_run inp context u env w s Hu Hs). cbv zeta.
    destruct (negb _); [discriminate|].
    destruct (existsb _ _); [discriminate|].
    destruct (SpeechVersions.readable _) eqn:R; [|discriminate].
    intros [= <- <-]. simpl. split; [now exists s|]. split; [exact R | reflexivity].
  - unfold server.createSpeechVersion.handler.
    erewrite bind_inr by (apply requireUser_signed_in; exact Hu).
    erewrite bind_inl by exact E. discriminate.
Qed.

(** X14. After a successful [createSpeechVersion], a listing of the
    versions of that speech that returned before the call returns after
    it the listing of before followed by the new version; with
    [preferredOnly] the new version is listed exactly when it is
    preferred. *)
Theorem createSpeechVersion_then_list raw context u env env' w version w' inp before :
  caller context = Some u ->
  server.createSpeechVersion.action raw context env w = (inr (Some version), w') ->
  server.listSpeechVersions.speechId inp = SpeechVersions.speechId version ->
  fst (server.listSpeechVersions.handler inp context env' w) = inr before ->
  fst (server.listSpeechVersions.handler inp context env' w')
  = inr {| items := items before
                    ++ (if server.listSpeechVersions.preferredOnly inp
                           && negb (SpeechVersions.isPreferred version)
                        then [] else [version]);
           total := List.length
                      (items before
                       ++ (if server.listSpeechVersions.preferredOnly inp
                              && negb (SpeechVersions.isPreferred version)
                           then [] else [version])) |}.
Proof.
  intros Hu Hrun Hsid Hbefore.
  destruct (createSpeechVersion_succeeded raw context u env w version w' Hu Hrun)
    as ((s & Hs) & Hread & Hdb).
  rewrite <- Hsid in Hs.
  assert (Hs' : owned_speech (db w') (server.listSpeechVersions.speechId inp) (App.id u) s).
  { apply (owned_speech_same_rows (db w)); [now rewrite Hdb | exact Hs]. }
  rewrite (listSpeechVersions_handler_run inp context u env' w s Hu Hs) in Hbefore.
  rewrite (listSpeechVersions_handler_run inp context u env' w' s Hu Hs').
  cbv zeta in *. simpl fst in *.
  destruct (forallb _ _) eqn:R in Hbefore; [|discriminate].
  injection Hbefore as <-. cbn [items].
  rewrite Hdb. cbn [db SpeechVersions_rows].
  rewrite filter_app, forallb_app, R. simpl. rewrite Hsid.
  destruct (server.listSpeechVersions.preferredOnly inp); simpl;
    rewrite String.eqb_refl; simpl;
    destruct (SpeechVersions.isPreferred version); simpl; rewrite ?Hread; reflexivity.
Qed.

Lemma createSpeechVersion_then_list_witness :
  fst (server.listSpeechVersions.handler
         {| server.listSpeechVersions.speechId := "s1";
            server.listSpeechVersions.preferredOnly := true |}
         (as_user alice) (at_time 3100)
         (snd (server.createSpeechVersion.action (script_request "s1") (as_user alice)
                                                 (at_time 3000) sample)))
  = inr {| items := [toast_formal] ++ []; total := List.length ([toast_formal] ++ []) |}.
Proof.
  apply (createSpeechVersion_then_list
           (script_request "s1") (as_user alice) alice (at_time 3000) (at_time 3100) sample
           (SpeechVersions.written (new_version script_input (at_time 3000)))
           (snd (server.createSpeechVersion.action (script_request "s1") (as_user alice)
                                                   (at_time 3000) sample))
           {| server.listSpeechVersions.speechId := "s1";
              server.listSpeechVersions.preferredOnly := true |}
           {| items := [toast_formal]; total := 1 |}).
  - reflexivity.
  - reflexivity.
  - reflexivity.
  - reflexivity.
Defined.

(** What a successful [deleteSpeechVersion] tells about its run. *)
Lemma deleteSpeechVersion_succeeded inp context env w w' :
  server.deleteSpeechVersion.handler inp context env w = (inr tt, w') ->
  db w' = {| Speeches_rows := Speeches_rows (db w);
             SpeechVersions_rows :=
               filter (fun r => negb (String.eqb (SpeechVersions.id r)
                                                 (server.deleteSpeechVersion.id inp)))
                      (SpeechVersions_rows (db w)) |}.
Proof.
  destruct (caller context) as [u|] eqn:Hc.
  - destruct (getOwnedSpeechVersion_cases
                (server.deleteSpeechVersion.id inp) (server.deleteSpeechVersion.speechId inp)
                (App.id u) env w)
      as [(_ & E)|[(_ & _ & E)|[((s & Hs) & Hr & v & Hv & _)|(_ & _ & E)]]].
    + unfold server.deleteSpeechVersion.handler.
      erewrite bind_inr by (apply requireUser_signed_in; exact Hc).
      erewrite bind_inl by exact E. discriminate.
    + unfold server.deleteSpeechVersion.handler.
      erewrite bind_inr by (apply requireUser_signed_in; exact Hc).
      erewrite bind_inl by exact E. discriminate.
    + rewrite (deleteSpeechVersion_handler_run inp context u env w s v Hc Hs Hv Hr).
      intros [= <-]. reflexivity.
    + unfold server.deleteSpeechVersion.handler.
      erewrite bind_inr by (apply requireUser_signed_in; exact Hc).
      erewrite bind_inl by exact E. discriminate.
  - unfold server.deleteSpeechVersion.handler.
    erewrite bind_inl by (apply requireUser_anonymous; exact Hc). discriminate.
Qed.

Lemma filter_swap {A} (p q : A -> bool) (l : list A) :
  filter p (filter q l) = filter q (filter p l).
Proof.
  induction l as [|x l IH]; simpl; [reflexivity|].
  destruct (q x) eqn:Q, (p x) eqn:P; simpl; rewrite ?Q, ?P, IH; reflexivity.
Qed.

(** What a successful [listSpeechVersions] tells about its run. *)
Lemma listSpeechVersions_succeeded inp context env w l :
  fst (server.listSpeechVersions.handler inp context env w) = inr l ->
  exists u s, caller context = Some u /\
              owned_speech (db w) (server.listSpeechVersions.speechId inp) (App.id u) s.
Proof.
  destruct (caller context) as [u|] eqn:Hc.
  - destruct (getOwnedSpeech_cases (server.listSpeechVersions.speechId inp) (App.id u) env w)
      as [(s & Hs & _)|(_ & E)].
    + intros _. now exists u, s.
    + unfold server.listSpeechVersions.handler.
      erewrite bind_inr by (apply requireUser_signed_in; exact Hc).
      erewrite bind_inl by exact E. discriminate.
  - unfold server.listSpeechVersions.handler.
    erewrite bind_inl by (apply requireUser_anonymous; exact Hc). discriminate.
Qed.

(** X15. After a successful [deleteSpeechVersion], every listing of
    versions that succeeded before succeeds again and gives the listing
    of before without the version of the deleted id, the others in
    their order. *)
Theorem deleteSpeechVersion_then_list raw inp context env w w' linp lcontext lenv before :
  server.deleteSpeechVersion.input raw = Some inp ->
  server.deleteSpeechVersion.action raw context env w = (inr tt, w') ->
  fst (server.listSpeechVersions.handler linp lcontext lenv w) = inr before ->
  let remaining :=
    filter (fun v => negb (String.eqb (SpeechVersions.id v)
                                      (server.deleteSpeechVersion.id inp)))
           (items before) in
  fst (server.listSpeechVersions.handler linp lcontext lenv w')
  = inr {| items := remaining; total := List.length remaining |}.
Proof.
  intros Hi Hrun Hbefore remaining.
  unfold server.deleteSpeechVersion.action in Hrun.
  erewrite defineAction_parsed in Hrun by exact Hi.
  apply deleteSpeechVersion_succeeded in Hrun.
  destruct (listSpeechVersions_succeeded linp lcontext lenv w before Hbefore)
    as (u & s & Hu & Hs).
  assert (Hs' : owned_speech (db w') (server.listSpeechVersions.speechId linp) (App.id u) s).
  { apply (owned_speech_same_rows (db w)); [now rewrite Hrun | exact Hs]. }
  rewrite (listSpeechVersions_handler_run linp lcontext u lenv w s Hu Hs) in Hbefore.
  rewrite (listSpeechVersions_handler_run linp lcontext u lenv w' s Hu Hs').
  cbv zeta in *. simpl fst in *.
  destruct (forallb _ _) eqn:R in Hbefore; [|discriminate].
  injection Hbefore as <-.
  unfold remaining. cbn [items]. rewrite Hrun. cbn [db SpeechVersions_rows].
  rewrite filter_swap.
  assert (R' : forall g l, forallb SpeechVersions.readable l = true ->
                           forallb SpeechVersions.readable (filter g l) = true).
  { intros g l H. apply forallb_forall. intros x Hx. apply filter_In in Hx.
    rewrite forallb_forall in H. now apply H. }
  now rewrite (R' _ _ R).
Qed.

Lemma deleteSpeechVersion_then_list_witness :
  fst (server.listSpeechVersions.handler
         {| server.listSpeechVersions.speechId := "s1";
            server.listSpeechVersions.preferredOnly := false |}
         (as_user alice) (at_time 3100)
         (snd (server.deleteSpeechVersion.action delete_request (as_user alice)
                                                 (at_time 3000) sample)))
  = inr {| items := [toast_formal]; total := 1 |}.
Proof.
  apply (deleteSpeechVersion_then_list
           delete_request
           {| server.deleteSpeechVersion.id := "v2";
              server.deleteSpeechVersion.speechId := "s1" |}
           (as_user alice) (at_time 3000) sample
           (snd (server.deleteSpeechVersion.action delete_request (as_user alice)
                                                   (at_time 3000) sample))
           {| server.listSpeechVersions.speechId := "s1";
              server.listSpeechVersions.preferredOnly := false |}
           (as_user alice) (at_time 3100)
           {| items := [toast_formal; toast_short]; total := 2 |}).
  - reflexivity.
  - reflexivity.
  - reflexivity.
Defined.

(* ===================================================================== *)
(** ** Repeating an update *)

Lemma updateSpeech_succeeded raw context env w r1 w1 :
  server.updateSpeech.action raw context env w = (inr r1, w1) ->
  exists inp u s,
    server.updateSpeech.input raw = Some inp /\
    caller context = Some u /\
    owned_speech (db w) (server.updateSpeech.id inp) (App.id u) s /\
    db w1 = {| Speeches_rows :=
                 map (fun r => if String.eqb (Speeches.id r) (server.updateSpeech.id inp)
                               then Speeches.apply (Speeches.written_set (speech_changes inp env)) r else r)
                     (Speeches_rows (db w));
               SpeechVersions_rows := SpeechVersions_rows (db w) |}.
Proof.
  unfold server.updateSpeech.action, defineAction.
  destruct (server.updateSpeech.input raw) as [inp|]; [|discriminate].
  destruct (caller context) as [u|] eqn:Hc.
  - destruct (getOwnedSpeech_cases (server.updateSpeech.id inp) (App.id u) env w)
      as [(s & Hs & _)|(_ & E)].
    + rewrite (updateSpeech_handler_run inp context u env w s Hc Hs). cbv zeta.
      intros [= _ <-]. now exists inp, u, s.
    + unfold server.updateSpeech.handler.
      erewrite bind_inr by (apply requireUser_signed_in; exact Hc).
      erewrite bind_inl by exact E. discriminate.
  - unfold server.updateSpeech.handler.
    erewrite bind_inl by (apply requireUser_anonymous; exact Hc). discriminate.
Qed.

Lemma speech_changes_absorb inp env env' r :
  Speeches.apply (Speeches.written_set (speech_changes inp env')) (Speeches.apply (Speeches.written_set (speech_changes inp env)) r)
  = Speeches.apply (Speeches.written_set (speech_changes inp env')) r.
Proof.
  unfold Speeches.apply, Speeches.written_set, speech_changes, Speeches.assign. simpl.
  destruct (server.updateSpeech.title inp), (server.updateSpeech.occasion inp),
    (server.updateSpeech.audience inp), (server.updateSpeech.language inp),
    (server.updateSpeech.notes inp); reflexivity.
Qed.

(** X16. Repeating a successful [updateSpeech] with the same input is
    the later update alone: run again at any clock reading, it returns
    the row and leaves the database that the call at that reading would
    have produced on the store of before.  At the same reading it
    returns the same row and changes nothing. *)
Theorem updateSpeech_repeated raw context env env' w r1 w1 :
  server.updateSpeech.action raw context env w = (inr r1, w1) ->
  fst (server.updateSpeech.action raw context env' w1)
  = fst (server.updateSpeech.action raw context env' w) /\
  db (snd (server.updateSpeech.action raw context env' w1))
  = db (snd (server.updateSpeech.action raw context env' w)) /\
  fst (server.updateSpeech.action raw context env w1) = inr r1 /\
  db (snd (server.updateSpeech.action raw context env w1)) = db w1.
Proof.
  intros Hrun.
  destruct (updateSpeech_succeeded raw context env w r1 w1 Hrun)
    as (inp & u & s & Hi & Hu & Hs & Hdb).
  set (p := fun r => String.eqb (Speeches.id r) (server.updateSpeech.id inp)) in *.
  set (f := fun e r => if p r then Speeches.apply (Speeches.written_set (speech_changes inp e)) r else r).
  assert (Hp : forall e r, p (f e r) = p r).
  { intros e r. unfold f. destruct (p r) eqn:P; [|exact P]. exact P. }
  assert (Hff : forall e e' r, f e' (f e r) = f e' r).
  { intros e e' r. unfold f at 1. rewrite Hp. unfold f.
    destruct (p r); [apply speech_changes_absorb | reflexivity]. }
  assert (Hs1 : owned_speech (db w1) (server.updateSpeech.id inp) (App.id u) (f env s)).
  { destruct Hs as (Hin & Hid & Huid). rewrite Hdb. split; [|split].
    - simpl. apply in_map_iff. exists s. split; [reflexivity | exact Hin].
    - unfold f. now destruct (p s).
    - unfold f. now destruct (p s). }
  assert (Hfilter : forall e l, filter p (map (f e) l) = map (f e) (filter p l)).
  { intros e l. induction l as [|x l IH]; simpl; [reflexivity|].
    rewrite Hp. destruct (p x); simpl; now rewrite IH. }
  assert (Hgen : forall e,
             server.updateSpeech.action raw context e w1
             = (inr (hd_error (map (Speeches.apply (Speeches.written_set (speech_changes inp e)))
                                   (filter p (Speeches_rows (db w))))),
                {| db := {| Speeches_rows := map (f e) (Speeches_rows (db w));
                            SpeechVersions_rows := SpeechVersions_rows (db w) |};
                   issued := (issued w1 ++ [SELECT TSpeeches]) ++ [UPDATE TSpeeches] |})).
  { intros e. unfold server.updateSpeech.action.
    erewrite defineAction_parsed by exact Hi.
    rewrite (updateSpeech_handler_run inp context u e w1 (f env s) Hu Hs1). cbv zeta.
    rewrite Hdb. simpl. fold p.
    assert (E1 : map (fun r => if String.eqb (Speeches.id r) (server.updateSpeech.id inp)
                               then Speeches.apply (Speeches.written_set (speech_changes inp e)) r else r)
                     (map (fun r => if String.eqb (Speeches.id r)
                                                  (server.updateSpeech.id inp)
                                    then Speeches.apply (Speeches.written_set (speech_changes inp env)) r else r)
                          (Speeches_rows (db w)))
                 = map (f e) (Speeches_rows (db w))).
    { rewrite map_map. apply map_ext. intros x. apply (Hff env e x). }
    assert (E2 : map (Speeches.apply (Speeches.written_set (speech_changes inp e)))
                     (filter p (map (fun r => if String.eqb (Speeches.id r)
                                                            (server.updateSpeech.id inp)
                                              then Speeches.apply (Speeches.written_set (speech_changes inp env)) r
                                              else r)
                                    (Speeches_rows (db w))))
                 = map (Speeches.apply (Speeches.written_set (speech_changes inp e)))
                       (filter p (Speeches_rows (db w)))).
    { transitivity (map (Speeches.apply (Speeches.written_set (speech_changes inp e)))
                        (filter p (map (f env) (Speeches_rows (db w)))));
        [reflexivity|].
      rewrite (Hfilter env (Speeches_rows (db w))), map_map.
      apply map_ext_in. intros x Hx.
      apply filter_In in Hx. destruct Hx as [_ Px]. unfold f. rewrite Px.
      apply speech_changes_absorb. }
    rewrite E1, E2. reflexivity. }
  assert (Hfirst : forall e,
             server.updateSpeech.action raw context e w
             = (inr (hd_error (map (Speeches.apply (Speeches.written_set (speech_changes inp e)))
                                   (filter p (Speeches_rows (db w))))),
                {| db := {| Speeches_rows := map (f e) (Speeches_rows (db w));
                            SpeechVersions_rows := SpeechVersions_rows (db w) |};
                   issued := (issued w ++ [SELECT TSpeeches]) ++ [UPDATE TSpeeches] |})).
  { intros e. unfold server.updateSpeech.action.
    erewrite defineAction_parsed by exact Hi.
    now rewrite (updateSpeech_handler_run inp context u e w s Hu Hs). }
  rewrite (Hgen env'), (Hfirst env'), (Hgen env). rewrite (Hfirst env) in Hrun.
  injection Hrun as <- <-. repeat split.
Qed.

Lemma updateSpeech_repeated_witness :
  fst (server.updateSpeech.action
         retitle_request (as_user alice) (at_time 3000)
         (snd (server.updateSpeech.action retitle_request (as_user alice) (at_time 3000)
                                          sample)))
  = fst (server.updateSpeech.action retitle_request (as_user alice) (at_time 3000) sample).
Proof.
  destruct (updateSpeech_repeated
              retitle_request (as_user alice) (at_time 3000) (at_time 3000) sample
              (Some (Speeches.apply (Speeches.written_set (speech_changes retitle_input (at_time 3000)))
                                    toast))
              (snd (server.updateSpeech.action retitle_request (as_user alice) (at_time 3000)
                                               sample)))
    as (H & _).
  - reflexivity.
  - exact H.
Defined.

(* ===================================================================== *)
(** ** The statements a call issues *)

Lemma issued_nil (w : World) : issued w = (issued w ++ [])%list.
Proof. now rewrite app_nil_r. Qed.

Ltac close_sequence :=
  simpl; rewrite <- ?app_assoc; simpl;
  first [ exists []; split; [apply issued_nil | simpl; tauto]
        | eexists; split; [reflexivity | simpl; tauto] ].

Lemma call_sequence op raw context env w :
  exists sts, issued (snd (call op raw context env w)) = (issued w ++ sts)%list /\
              In sts statement_sequences.
Proof.
  destruct op; unfold_actions; unfold defineAction;
    match goal with |- context [?input raw] => destruct (input raw) as [inp|] end;
    try close_sequence;
    unfold_handlers;
    unfold getOwnedSpeechVersion, getOwnedSpeech, requireUser,
      server.deleteSpeechVersion.delete_checked, bind, ret, throw, new_Date, randomUUID,
      Db.select_Speeches, Db.select_SpeechVersions, Db.insert_Speeches,
      Db.insert_SpeechVersions, Db.update_Speeches, Db.update_SpeechVersions,
      Db.delete_SpeechVersions, issue;
    repeat match goal with
           | |- context [match ?x with _ => _ end] =>
               lazymatch x with
               | context [match _ with _ => _ end] => fail
               | _ => destruct x
               end
           end;
    close_sequence.
Qed.

(** X17. A call issues one of eight statement sequences: at most three
    statements, of which only the last can be a write, every statement
    before it being a read of the guard. *)
Theorem call_writes_last op raw context env w :
  exists sts,
    issued (snd (call op raw context env w)) = (issued w ++ sts)%list /\
    In sts statement_sequences /\
    (List.length sts <= 3)%nat /\
    forallb (fun st => negb (is_write st)) (removelast sts) = true.
Proof.
  destruct (call_sequence op raw context env w) as (sts & E & Hin).
  exists sts. split; [exact E|]. split; [exact Hin|].
  simpl in Hin.
  repeat (destruct Hin as [<-|Hin]; [split; [simpl; lia | reflexivity]|]).
  destruct Hin.
Qed.

(* ===================================================================== *)
(** ** Keys the schema does not declare *)

Ltac agree_on H props :=
  repeat match goal with
         | |- context [lookup_prop ?k props] => rewrite (H k) by (simpl; tauto)
         end.

Lemma inputs_agree op raw raw' :
  op <> ListSpeeches ->
  (forall k, In k (declared_keys op) -> prop raw k = prop raw' k) ->
  match op with
  | CreateSpeech => server.createSpeech.input raw = server.createSpeech.input raw'
  | UpdateSpeech => server.updateSpeech.input raw = server.updateSpeech.input raw'
  | ListSpeeches => True
  | CreateSpeechVersion =>
      server.createSpeechVersion.input raw = server.createSpeechVersion.input raw'
  | UpdateSpeechVersion =>
      server.updateSpeechVersion.input raw = server.updateSpeechVersion.input raw'
  | DeleteSpeechVersion =>
      server.deleteSpeechVersion.input raw = server.deleteSpeechVersion.input raw'
  | ListSpeechVersions =>
      server.listSpeechVersions.input raw = server.listSpeechVersions.input raw'
  end.
Proof.
  intros Hop H.
  destruct op; try exact I;
    unfold server.createSpeech.input, server.updateSpeech.input,
      server.createSpeechVersion.input, server.updateSpeechVersion.input,
      server.deleteSpeechVersion.input, server.listSpeechVersions.input,
      z.refine, z.object;
    destruct raw as [| | | | | |props], raw' as [| | | | | |props'];
    try reflexivity; cbn [prop declared_keys] in H;
    try (agree_on H props; reflexivity);
    match type of H with
    | forall k, In k ?keys -> _ =>
        assert (H' : forall k, In k keys -> lookup_prop k props' = JUndefined)
          by (intros k Hk; symmetry; exact (H k Hk))
    end;
    agree_on H' props'; reflexivity.
Qed.

(** X18. Only the keys a schema declares matter: two requests that agree
    on the declared keys of an operation (other than [listSpeeches],
    which declares none) are served alike, whatever else they carry.
    A request cannot choose the id, the owner or the timestamps of a
    row. *)
Theorem undeclared_keys_ignored op raw raw' context env w :
  op <> ListSpeeches ->
  (forall k, In k (declared_keys op) -> prop raw k = prop raw' k) ->
  call op raw context env w = call op raw' context env w.
Proof.
  intros Hop H. pose proof (inputs_agree op raw raw' Hop H) as E.
  destruct op; unfold_actions; unfold defineAction;
    try (now rewrite E); contradiction.
Qed.

Lemma undeclared_keys_ignored_witness :
  call CreateSpeech
       (JObj [("userId", JStr "bob"); ("title", JStr "Wedding Toast");
              ("id", JStr "chosen"); ("createdAt", JNum 0%float)])
       (as_user alice) (at_time 2000) sample
  = call CreateSpeech wedding_toast_request (as_user alice) (at_time 2000) sample.
Proof.
  apply (undeclared_keys_ignored
           CreateSpeech
           (JObj [("userId", JStr "bob"); ("title", JStr "Wedding Toast");
                  ("id", JStr "chosen"); ("createdAt", JNum 0%float)])
           wedding_toast_request (as_user alice) (at_time 2000) sample).
  - discriminate.
  - simpl. intros k [<-|[<-|[<-|[<-|[<-|[]]]]]]; reflexivity.
Defined.

(* ===================================================================== *)
(** ** An empty script *)

(** X19. [createSpeechVersion] refuses an empty [scriptText], but
    [updateSpeechVersion] accepts one: on a version the caller owns and
    the driver can read back it succeeds and the stored version has the
    empty script. *)
Theorem empty_script_by_update context u env w s old versionId speechId :
  NoDup (map SpeechVersions.id (SpeechVersions_rows (db w))) ->
  caller context = Some u ->
  versionId <> "" ->
  speechId <> "" ->
  owned_speech (db w) speechId (App.id u) s ->
  version_of (db w) versionId speechId old ->
  SpeechVersions.readable old = true ->
  (forall raw, prop raw "scriptText" = JStr "" ->
               server.createSpeechVersion.action raw context env w
               = (inl ValidationError, w)) /\
  exists new w',
    server.updateSpeechVersion.action
      (JObj [("id", JStr versionId); ("speechId", JStr speechId); ("scriptText", JStr "")])
      context env w = (inr (Some new), w') /\
    In new (SpeechVersions_rows (db w')) /\
    SpeechVersions.id new = versionId /\
    SpeechVersions.scriptText new = "".
Proof.
  intros ND Hu Hv Hsid Hs Hold Hread. split.
  - intros raw Hraw. apply defineAction_rejected.
    destruct (server.createSpeechVersion.input raw) as [inp|] eqn:E; [|reflexivity].
    apply createSpeechVersion_input_fields in E. destruct E as (_ & E & L).
    rewrite E in Hraw. apply JStr_inj in Hraw. rewrite Hraw in L. simpl in L. lia.
  - set (inp := {| server.updateSpeechVersion.id := versionId;
                   server.updateSpeechVersion.speechId := speechId;
                   server.updateSpeechVersion.versionLabel := None;
                   server.updateSpeechVersion.tone := None;
                   server.updateSpeechVersion.targetDurationMinutes := None;
                   server.updateSpeechVersion.scriptText := Some "";
                   server.updateSpeechVersion.isPreferred := None |}).
    assert (Hi : server.updateSpeechVersion.input
                   (JObj [("id", JStr versionId); ("speechId", JStr speechId);
                          ("scriptText", JStr "")]) = Some inp).
    { destruct versionId as [|a vs]; [contradiction|].
      destruct speechId as [|b ss]; [contradiction|]. reflexivity. }
    unfold server.updateSpeechVersion.action.
    erewrite defineAction_parsed by exact Hi.
    destruct (updateSpeechVersion_effect inp context u env w s old ND Hu Hs Hold Hread
                                         eq_refl)
      as (w' & Hrun & Hin & _).
    assert (R : SpeechVersions.readable
                  (SpeechVersions.apply (SpeechVersions.written_set (version_changes inp)) old)
                = true) by exact Hread.
    rewrite R in Hrun.
    eexists. exists w'. split; [exact Hrun|]. split; [exact Hin|].
    destruct Hold as (_ & Hid & _). split; [exact Hid | reflexivity].
Qed.

Lemma empty_script_by_update_witness :
  exists new w',
    server.updateSpeechVersion.action
      (JObj [("id", JStr "v1"); ("speechId", JStr "s1"); ("scriptText", JStr "")])
      (as_user alice) (at_time 3000) sample = (inr (Some new), w') /\
    In new (SpeechVersions_rows (db w')) /\
    SpeechVersions.id new = "v1" /\
    SpeechVersions.scriptText new = "".
Proof.
  apply (empty_script_by_update (as_user alice) alice (at_time 3000) sample toast
                                toast_formal "v1" "s1").
  - exact (proj2 sample_primary_keys).
  - reflexivity.
  - discriminate.
  - discriminate.
  - split; [left; reflexivity | split; reflexivity].
  - split; [left; reflexivity | split; reflexivity].
  - reflexivity.
Defined.

(* ===================================================================== *)
(** ** The driver at its edges *)

(** A title made of U+0000 passes [min(1)] and comes back empty, from
    the insert and from a listing after it. *)
Example nul_title_is_returned_empty :
  let run := server.createSpeech.action
               (JObj [("title", JStr (String Ascii.zero EmptyString))])
               (as_user alice) (at_time 2000) empty_world in
  option_map Speeches.title (match fst run with inr r => r | inl _ => None end) = Some ""
  /\ match fst (server.listSpeeches.action JUndefined (as_user alice) (at_time 2100) (snd run))
     with
     | inr l => map Speeches.title (items l)
     | inl _ => []
     end = [""].
Proof. split; reflexivity. Qed.

Example text_is_cut_at_nul :
  Driver.text (String "a" (String Ascii.zero (String "b" EmptyString))) = "a".
Proof. reflexivity. Qed.

(** A duration that is not finite is refused and nothing is stored. *)
Example infinite_duration_is_refused :
  let run := server.createSpeechVersion.action
               (JObj [("speechId", JStr "s1"); ("scriptText", JStr "Hello...");
                      ("targetDurationMinutes", JNum PrimFloat.infinity)])
               (as_user alice) (at_time 3000) sample in
  fst run = inl RangeError /\ db (snd run) = db sample.
Proof. split; reflexivity. Qed.

(** The largest safe integer and a fraction are stored and read back;
    the store left by a duration of 2^53 can no longer be listed. *)
Example safe_durations_are_read_back :
  Driver.reads_number 9007199254740991%float = true
  /\ Driver.reads_number 2.5%float = true
  /\ Driver.reads_number 9007199254740992%float = false
  /\ Driver.reads_number (-9007199254740992)%float = false.
Proof. repeat split. Qed.

Example unreadable_version_blocks_listing :
  fst (server.listSpeechVersions.action (versions_request false) (as_user alice)
                                        (at_time 3100) long_version_world)
  = inl RangeError.
Proof. reflexivity. Qed.
